(** * geo-analyzer: the query core and its HTTP parameter parsing

    A shallow embedding of [backend/geotiff_engine.py] and of the query
    handlers of [backend/server.py], with the properties the design
    document states about them.

    Conventions of the embedding.

    - A Python [float] is a binary64 value: Rocq's primitive [float].
      [<] and [==] are [PrimFloat.ltb] and [PrimFloat.eqb], so [0.0 == -0.0]
      holds and [nan] compares unequal to everything, as in Python.
    - A Python function that can raise returns a [result]; the exception
      classes that the handlers tell apart are constructors of [exn].
    - A [dict] keyed by statistic names is a [gmap string float]; a JSON
      object, whose key order matters when it is iterated, is an
      association list.
    - What the repository calls but does not define (pyproj, shapely,
      rasterio, numpy.ma, exactextract, the formatting and parsing of
      numbers) is a field of the class [Externals]; nothing is assumed
      about these fields except where a statement says so. *)

From Stdlib Require Import ZArith List String Ascii Floats Lia Permutation Sorted Bool.
From Stdlib Require Strings.Byte OrderedTypeEx.
From stdpp Require Import base option gmap strings pretty.
Import ListNotations.

Set Warnings "-register-all".

Local Open Scope string_scope.
Local Open Scope list_scope.

(* ================================================================== *)
(** * Python results and exceptions *)

Inductive exn : Type :=
  | ValueError (msg : string)
  | KeyError (key : string)
  | TypeError (msg : string)
  | IndexError (msg : string)
  | AttributeError (msg : string)
  | OverflowError (msg : string)
  | LibraryError (msg : string).   (* raised inside an external library *)

Inductive result (A : Type) : Type :=
  | Ok (a : A)
  | Raise (e : exn).

Arguments Ok {A} a.
Arguments Raise {A} e.

Definition bind {A B : Type} (r : result A) (k : A -> result B) : result B :=
  match r with
  | Ok a => k a
  | Raise e => Raise e
  end.

Notation "'do' x <- r ; k" := (bind r (fun x => k))
  (at level 10, x pattern, r at level 100, k at level 200).

(** A [for] loop that appends one value per element, stopping at the first
    exception. *)
Fixpoint for_each {A B : Type} (f : A -> result B) (l : list A) : result (list B) :=
  match l with
  | [] => Ok []
  | x :: xs => do y <- f x; do ys <- for_each f xs; Ok (y :: ys)
  end.

(** [l[i]] for a non-negative index. *)
Definition getitem {A : Type} (l : list A) (i : nat) : result A :=
  match nth_error l i with
  | Some x => Ok x
  | None => Raise (IndexError "list index out of range")
  end.

(* ================================================================== *)
(** * Floats: order, [sorted] and [set] *)

Module PyFloat.

Definition lt (x y : float) : bool := PrimFloat.ltb x y.
Definition eq (x y : float) : bool := PrimFloat.eqb x y.

(** [x] is a number: not a NaN. *)
Definition is_num (x : float) : Prop := PrimFloat.is_nan x = false.

(** [x <= y] as [sorted] sees it: [y < x] does not hold. *)
Definition le (x y : float) : Prop := lt y x = false.

(** [sorted(l)]: CPython's sort is stable and compares with [<] only.  On a
    list of numbers [<] is a strict weak order and every stable sort returns
    the same list; the stable insertion sort below is that list.  (On a list
    that holds a NaN the order CPython returns depends on the run detection
    of its merge sort and is not modelled: statements about the order carry
    the hypothesis that the elements are numbers.) *)
Fixpoint insort (x : float) (l : list float) : list float :=
  match l with
  | [] => [x]
  | y :: ys => if lt y x then y :: insort x ys else x :: y :: ys
  end.

Fixpoint sorted (l : list float) : list float :=
  match l with
  | [] => []
  | x :: xs => insort x (sorted xs)
  end.

(** [set(l)], as the list of its elements in order of first insertion:
    an element equal ([==]) to one already present is not added.  The
    iteration order of a Python set is not this one, but the engine only
    ever iterates a set through [sorted]. *)
Definition set_add (x : float) (seen : list float) : list float :=
  if existsb (eq x) seen then seen else seen ++ [x].

Definition set_from (seen l : list float) : list float :=
  fold_left (fun seen x => set_add x seen) l seen.

Definition set (l : list float) : list float := set_from [] l.

(** The number of distinct values of [l], counted without reference to
    [set]: an element counts when no later element equals it. *)
Fixpoint count_distinct (l : list float) : nat :=
  match l with
  | [] => 0
  | x :: xs => (if existsb (eq x) xs then 0 else 1) + count_distinct xs
  end.

(** [min(l)] and [max(l)] of a non-empty list: the first smallest and the
    first largest element. *)
Definition min (x : float) (xs : list float) : float :=
  fold_left (fun m y => if lt y m then y else m) xs x.

Definition max (x : float) (xs : list float) : float :=
  fold_left (fun m y => if lt m y then y else m) xs x.

(** Values of the list that compare equal are one value: the list does not
    hold both [0.0] and [-0.0]. *)
Definition separated (l : list float) : Prop :=
  forall x y, In x l -> In y l -> eq x y = true -> x = y.

(** No two elements at different positions compare equal. *)
Definition pairwise_distinct (l : list float) : Prop :=
  ForallOrdPairs (fun a b => eq a b = false) l.

(** The number of last occurrences in [l] of values that [seen] lacks. *)
Fixpoint count_new (seen l : list float) : nat :=
  match l with
  | [] => 0
  | x :: xs =>
      (if existsb (eq x) xs || existsb (eq x) seen then 0 else 1) + count_new seen xs
  end.

End PyFloat.

(* ================================================================== *)
(** * Strings: [sorted] and [set] *)

Module PyStr.

(** [a < b] on [str]: the lexicographic order of the code points, which is
    the order of the bytes of the UTF-8 encoding that a [string] holds. *)
Definition lt (a b : string) : bool := String.ltb a b.

(** [sorted(l)] for strings: the order is total, so the result does not
    depend on the algorithm. *)
Fixpoint insort (x : string) (l : list string) : list string :=
  match l with
  | [] => [x]
  | y :: ys => if lt y x then y :: insort x ys else x :: y :: ys
  end.

Fixpoint sorted (l : list string) : list string :=
  match l with
  | [] => []
  | x :: xs => insort x (sorted xs)
  end.

(** The elements of a [set] of strings filled from [l], each once, in order
    of first insertion; a set is only ever iterated through [sorted]. *)
Definition set_add (x : string) (seen : list string) : list string :=
  if existsb (String.eqb x) seen then seen else seen ++ [x].

Definition set (l : list string) : list string :=
  fold_left (fun seen x => set_add x seen) l [].

(** [a <= b] as [sorted] sees it. *)
Definition le (a b : string) : Prop := lt b a = false.

(** [k.startswith("_")] *)
Definition startswith_underscore (k : string) : bool :=
  match k with
  | String c _ => Ascii.eqb c "_"%char
  | EmptyString => false
  end.

End PyStr.

(* ================================================================== *)
(** * Data of the engine *)

(** A coordinate pair: (longitude, latitude) in WGS84, or (x, y) in the
    raster's own coordinate system. *)
Definition coord : Type := (float * float)%type.

(** A shapely [Polygon]: the exterior ring and the interior rings (holes). *)
Record Polygon : Type := mkPolygon {
  exterior : list coord;
  interiors : list (list coord)
}.

(** The polygon without holes whose exterior ring is [coords]. *)
Definition Polygon_of (coords : list coord) : Polygon :=
  {| exterior := coords; interiors := [] |}.

(** [Polygon(coords)] for a list of coordinates that ends where it starts:
    shapely refuses a ring of one to three coordinates ("A linearring
    requires at least 4 coordinates."), and builds the empty polygon from
    no coordinate at all. *)
Definition Polygon_new (coords : list coord) : result Polygon :=
  if ((0 <? length coords) && (length coords <? 4))%nat
  then Raise (ValueError "A linearring requires at least 4 coordinates.")
  else Ok (Polygon_of coords).

(** [shapely.geometry.box(minx, miny, maxx, maxy)]: the counter-clockwise
    rectangle, starting at the lower right corner. *)
Definition box (minx miny maxx maxy : float) : Polygon :=
  Polygon_of [(maxx, miny); (maxx, maxy); (minx, maxy); (minx, miny); (maxx, miny)].

(** The rings of a polygon, the exterior first.  The empty polygon (its
    exterior has no coordinates) has no ring. *)
Definition rings (geom : Polygon) : list (list coord) :=
  match exterior geom with
  | [] => []
  | _ => exterior geom :: interiors geom
  end.

(** [shapely.geometry.mapping(geom)]: the GeoJSON-like dict of a polygon,
    first ring the exterior, the others the holes. *)
Record GeoJSON : Type := {
  gj_type : string;
  gj_coordinates : list (list coord)
}.

Definition mapping (geom : Polygon) : GeoJSON :=
  {| gj_type := "Polygon"; gj_coordinates := rings geom |}.

(** What [rasterio.open] gives access to. [ds_crs = None] stands for a
    dataset whose [crs] is falsy. *)
Record CRS : Type := {
  crs_name : string;          (* str(crs) *)
  is_geographic : bool
}.

Record Dataset : Type := {
  ds_crs : option CRS;
  ds_left : float; ds_bottom : float; ds_right : float; ds_top : float;
  ds_width : Z; ds_height : Z;
  ds_res : float * float;
  ds_count : Z;
  ds_nodata : option float
}.

(** An element of a numpy masked array. *)
Record pixel : Type := {
  value : float;
  masked : bool
}.

Record RasterInfo : Type := {
  ri_path : string;
  ri_crs : string;
  ri_width : Z;
  ri_height : Z;
  ri_res_x : float;
  ri_res_y : float;
  ri_bands : Z;
  ri_nodata : option float;
  ri_bounds : float * float * float * float;   (* west, south, east, north *)
  ri_bounds_polygon : list coord
}.

Record QueryResult : Type := {
  label : string;
  geometry_geojson : GeoJSON;
  stats : gmap string float
}.

Definition WGS84 : string := "EPSG:4326".
Definition CIRCLE_PTS : Z := 360.

(* ================================================================== *)
(** * The libraries the engine calls *)

Class Externals : Type := {
  (** builtins: [format(x, "")], [float(s)], [float(i)], [int(s)], [int(x)] *)
  float_repr : float -> string;
  float_of_str : string -> result float;
  float_of_int : Z -> result float;
  int_of_str : string -> result Z;
  int_of_float : float -> result Z;
  (** pyproj: [Geod(ellps="WGS84").fwd(lon, lat, az, dist)], its first two
      components, and [Transformer.from_crs(src, dst, always_xy=True).transform]
      on one coordinate pair *)
  geod_fwd : float -> float -> float -> float -> coord;
  Transformer_from_crs : string -> string -> coord -> coord;
  (** shapely: [a.difference(b)] *)
  difference : Polygon -> Polygon -> Polygon;
  (** rasterio: [rasterio.open(path)] and
      [rasterio.mask.mask(ds, [shape], crop=True, filled=False,
      all_touched=True, indexes=band)], its array listed along the first
      axis *)
  rasterio_open : string -> result Dataset;
  rio_mask : Dataset -> GeoJSON -> Z -> result (list (list pixel));
  (** numpy: the reductions, over the values that are not masked *)
  np_sum : list float -> float;
  np_mean : list float -> float;
  np_max : list float -> float;
  np_min : list float -> float;
  np_std : list float -> float;
  np_median : list float -> float;
  (** exactextract: whether the import succeeded, and
      [exact_extract(path, gdf, stats, output="pandas").iloc[0]] *)
  HAS_EXACT : bool;
  exact_extract : string -> Polygon -> list string -> result (gmap string float)
}.

(** The conversion of a count to a float. *)
Definition float_of_nat (k : nat) : float :=
  PrimFloat.of_uint63 (Uint63.of_Z (Z.of_nat k)).

(* ================================================================== *)
(** * backend/geotiff_engine.py *)

Section Engine.

Context {E : Externals}.

Local Open Scope float_scope.

(** ** Raster store *)

Definition corners (ds : Dataset) : list coord :=
  let raw := [ (ds_left ds, ds_bottom ds); (ds_right ds, ds_bottom ds);
               (ds_right ds, ds_top ds); (ds_left ds, ds_top ds) ] in
  match ds_crs ds with
  | Some crs =>
      if negb (is_geographic crs)
      then map (Transformer_from_crs (crs_name crs) WGS84) raw
      else raw
  | None => raw
  end.

Definition bounds_wgs (cs : list coord) : result (float * float * float * float) :=
  match cs with
  | [] => Raise (ValueError "min() arg is an empty sequence")
  | c :: rest =>
      Ok (PyFloat.min (fst c) (map fst rest), PyFloat.min (snd c) (map snd rest),
          PyFloat.max (fst c) (map fst rest), PyFloat.max (snd c) (map snd rest))
  end.

(** [ring = [[c[0], c[1]] for c in corners]; ring.append(ring[0])] *)
Definition bounds_ring (cs : list coord) : result (list coord) :=
  let ring := map (fun c => (fst c, snd c)) cs in
  do first <- getitem ring 0;
  Ok (ring ++ [first]).

(** The body of [with rasterio.open(path) as ds] in [RasterStore.load]. *)
Definition read_info (path : string) : result RasterInfo :=
  do ds <- rasterio_open path;
  let cs := corners ds in
  do b <- bounds_wgs cs;
  do ring <- bounds_ring cs;
  Ok {| ri_path := path;
        ri_crs := match ds_crs ds with Some crs => crs_name crs | None => "None" end;
        ri_width := ds_width ds;
        ri_height := ds_height ds;
        ri_res_x := fst (ds_res ds);
        ri_res_y := snd (ds_res ds);
        ri_bands := ds_count ds;
        ri_nodata := ds_nodata ds;
        ri_bounds := b;
        ri_bounds_polygon := ring |}.

(** [RasterStore.load]: [raster_id] is the identifier drawn by [uuid4] and
    [path] the temporary file the upload was written to. *)
Definition load (rasters : gmap string RasterInfo) (raster_id path : string)
  : result (gmap string RasterInfo * (string * RasterInfo)) :=
  do info <- read_info path;
  Ok (<[raster_id := info]> rasters, (raster_id, info)).

Definition get (rasters : gmap string RasterInfo) (raster_id : string) : option RasterInfo :=
  rasters !! raster_id.

(** ** Geometry builders *)

(** [np.linspace(0, 360, n, endpoint=False)] *)
Definition linspace (n : nat) : list float :=
  let step := 360 / float_of_nat n in
  map (fun i => float_of_nat i * step + 0) (seq 0 n).

Definition geodesic_circle (lon lat radius_m : float) (n : Z) : result Polygon :=
  if (n <? 0)%Z then Raise (ValueError "Number of samples must be non-negative")
  else
    let az := linspace (Z.to_nat n) in
    let coords := map (fun a => geod_fwd lon lat a radius_m) az in
    do first <- getitem coords 0;
    Polygon_new (coords ++ [first]).

Definition geodesic_annulus (lon lat inner_m outer_m : float) (n : Z) : result Polygon :=
  do outer <- geodesic_circle lon lat outer_m n;
  do inner <- geodesic_circle lon lat inner_m n;
  Ok (difference outer inner).

Definition rect_from_center (lon lat half_w_m half_h_m : float) : Polygon :=
  let '(n_lon, n_lat) := geod_fwd lon lat 0 half_h_m in
  let '(s_lon, s_lat) := geod_fwd lon lat 180 half_h_m in
  let '(e_lon, e_lat) := geod_fwd lon lat 90 half_w_m in
  let '(w_lon, w_lat) := geod_fwd lon lat 270 half_w_m in
  box w_lon s_lat e_lon n_lat.

(** ** Zonal statistics

    [compute_stats] first wraps the polygon in a one-row GeoDataFrame in
    WGS84; the exact branch hands that frame to exactextract, the other
    branch uses the polygon itself. *)

(** [np.ma.masked_where(arr == nd, arr)]: the elements equal to the nodata
    value are masked as well. *)
Definition masked_where_eq (nd : float) (arr : list pixel) : list pixel :=
  map (fun p => {| value := value p; masked := masked p || PyFloat.eq (value p) nd |}) arr.

Definition compressed (arr : list pixel) : list float :=
  map value (List.filter (fun p => negb (masked p)) arr).

(** [float(arr.f())] for a reduction [f] of a masked array: when every
    element is masked the reduction returns the constant [masked], which
    [float] converts to NaN. *)
Definition reduce (f : list float -> float) (arr : list pixel) : float :=
  match compressed arr with
  | [] => nan
  | vs => f vs
  end.

(** One turn of the [if]/[elif] chain over the statistic names. *)
Definition stat_value (s : string) (arr : list pixel) : float :=
  if String.eqb s "sum" then reduce np_sum arr
  else if String.eqb s "mean" then reduce np_mean arr
  else if String.eqb s "max" then reduce np_max arr
  else if String.eqb s "min" then reduce np_min arr
  else if String.eqb s "count" then float_of_nat (length (compressed arr))
  else if String.eqb s "stdev" then reduce np_std arr
  else if String.eqb s "median" then reduce np_median arr
  else nan.

(** [out = {}; for s in stats: out[s] = ...] *)
Definition aggregate (arr : list pixel) (stat_names : list string) : gmap string float :=
  fold_left (fun out s => <[s := stat_value s arr]> out) stat_names ∅.

(** The polygon the fallback rasterizes: [geom_native].  Its ring is the
    image of the exterior ring of a polygon shapely built, which has no
    coordinate or at least four, so this [Polygon(...)] does not refuse
    it. *)
Definition native_geometry (ds : Dataset) (geom : Polygon) : Polygon :=
  match ds_crs ds with
  | Some crs =>
      if negb (is_geographic crs)
      then Polygon_of (map (Transformer_from_crs WGS84 (crs_name crs)) (exterior geom))
      else geom
  | None => geom
  end.

(** The branch taken when exactextract was imported. *)
Definition compute_stats_exact (tif_path : string) (geom : Polygon)
    (stat_names : list string) : result (gmap string float) :=
  do row <- exact_extract tif_path geom stat_names;
  do vals <- for_each (fun s => match row !! s with
                                | Some v => Ok (s, v)
                                | None => Raise (KeyError s)
                                end) stat_names;
  Ok (fold_left (fun out sv => <[fst sv := snd sv]> out) vals ∅).

(** [if nd is not None: arr = np.ma.masked_where(arr == nd, arr)] *)
Definition mask_nodata (nd : option float) (arr : list pixel) : list pixel :=
  match nd with
  | Some nd => masked_where_eq nd arr
  | None => arr
  end.

(** The branch taken otherwise: mask and aggregate. *)
Definition compute_stats_fallback (tif_path : string) (geom : Polygon)
    (stat_names : list string) (band : Z) : result (gmap string float) :=
  do ds <- rasterio_open tif_path;
  let geom_native := native_geometry ds geom in
  do arr <- rio_mask ds (mapping geom_native) band;
  do arr <- getitem arr 0;
  let arr := mask_nodata (ds_nodata ds) arr in
  Ok (aggregate arr stat_names).

Definition compute_stats (tif_path : string) (geom : Polygon)
    (stat_names : list string) (band : Z) : result (gmap string float) :=
  if HAS_EXACT then compute_stats_exact tif_path geom stat_names
  else compute_stats_fallback tif_path geom stat_names band.

(** ** Query runners *)

Definition run_circle_query (tif_path : string) (lon lat : float)
    (radii_km : list float) (stat_names : list string) (band : Z)
  : result (list QueryResult) :=
  for_each (fun r =>
    do circ <- geodesic_circle lon lat (r * 1000) CIRCLE_PTS;
    do vals <- compute_stats tif_path circ stat_names band;
    Ok {| label := float_repr r ++ " km";
          geometry_geojson := mapping circ;
          stats := vals |}) (PyFloat.sorted radii_km).

(** The body of the loop of [run_band_query] at index [i]. *)
Definition band_result (tif_path : string) (lon lat : float) (edges : list float)
    (stat_names : list string) (band : Z) (i : nat) : result QueryResult :=
  do inner <- getitem edges i;
  do outer <- getitem edges (i + 1);
  do ring <- geodesic_annulus lon lat (inner * 1000) (outer * 1000) CIRCLE_PTS;
  do vals <- compute_stats tif_path ring stat_names band;
  Ok {| label := float_repr inner ++ "–" ++ float_repr outer ++ " km";
        geometry_geojson := mapping ring;
        stats := vals |}.

Definition run_band_query (tif_path : string) (lon lat : float)
    (edges_km : list float) (stat_names : list string) (band : Z)
  : result (list QueryResult) :=
  let edges := PyFloat.sorted (PyFloat.set edges_km) in
  for_each (band_result tif_path lon lat edges stat_names band)
           (seq 0 (length edges - 1)).

Definition run_rect_query (tif_path : string) (lon lat half_w_km half_h_km : float)
    (stat_names : list string) (band : Z) : result (list QueryResult) :=
  let rect := rect_from_center lon lat (half_w_km * 1000) (half_h_km * 1000) in
  do vals <- compute_stats tif_path rect stat_names band;
  Ok [ {| label := float_repr (half_w_km * 2) ++ "×" ++ float_repr (half_h_km * 2) ++ " km";
          geometry_geojson := mapping rect;
          stats := vals |} ].

(** A point of a compare query: the dict [{name, lat, lon}], with the
    latitude and longitude already floats, as the handler leaves them. *)
Record NamedPoint : Type := {
  pt_name : string;
  pt_lat : float;
  pt_lon : float
}.

Definition run_compare_query (tif_path : string) (points : list NamedPoint)
    (radius_km : float) (stat_names : list string) (band : Z)
  : result (list QueryResult) :=
  for_each (fun pt =>
    do circ <- geodesic_circle (pt_lon pt) (pt_lat pt) (radius_km * 1000) CIRCLE_PTS;
    do vals <- compute_stats tif_path circ stat_names band;
    Ok {| label := pt_name pt;
          geometry_geojson := mapping circ;
          stats := <["_lon" := pt_lon pt]> (<["_lat" := pt_lat pt]> vals) |}) points.

End Engine.

(* ================================================================== *)
(** * backend/server.py: the query handlers *)

(** The value [request.get_json(force=True)] returns.  The fields of an
    object are listed in the order of the dict, each key once. *)
Inductive json : Type :=
  | JNull
  | JBool (b : bool)
  | JInt (z : Z)
  | JFloat (f : float)
  | JStr (s : string)
  | JArr (items : list json)
  | JObj (fields : list (string * json)).

Fixpoint dict_lookup (fields : list (string * json)) (key : string) : option json :=
  match fields with
  | [] => None
  | (k, v) :: rest => if String.eqb k key then Some v else dict_lookup rest key
  end.

(** [d[key] = v] on a dict: the value is replaced in place, or the key is
    appended. *)
Fixpoint dict_set (fields : list (string * json)) (key : string) (v : json)
  : list (string * json) :=
  match fields with
  | [] => [(key, v)]
  | (k, w) :: rest =>
      if String.eqb k key then (k, v) :: rest else (k, w) :: dict_set rest key v
  end.

(** [data.get(key, default)] *)
Definition py_get (data : json) (key : string) (default : json) : result json :=
  match data with
  | JObj fields =>
      Ok (match dict_lookup fields key with Some v => v | None => default end)
  | _ => Raise (AttributeError "object has no attribute 'get'")
  end.

(** [data[key]] for a string key *)
Definition py_getitem (data : json) (key : string) : result json :=
  match data with
  | JObj fields =>
      match dict_lookup fields key with
      | Some v => Ok v
      | None => Raise (KeyError key)
      end
  | _ => Raise (TypeError "indices must be integers, or the object is not subscriptable")
  end.

(** The characters of a string, each as a string of length one.  (Python
    iterates code points and this lists bytes; the handlers only test the
    characters for membership among the statistic names or convert them to
    numbers.) *)
Fixpoint chars (s : string) : list string :=
  match s with
  | EmptyString => []
  | String c rest => String c EmptyString :: chars rest
  end.

(** [for x in v] *)
Definition py_iter (v : json) : result (list json) :=
  match v with
  | JArr items => Ok items
  | JStr s => Ok (map JStr (chars s))
  | JObj fields => Ok (map (fun kv => JStr (fst kv)) fields)
  | _ => Raise (TypeError "object is not iterable")
  end.

(** [bool(v)] *)
Definition truthy (v : json) : bool :=
  match v with
  | JNull => false
  | JBool b => b
  | JInt z => negb (z =? 0)%Z
  | JFloat f => negb (PyFloat.eq f 0%float)
  | JStr s => negb (String.eqb s "")
  | JArr items => match items with [] => false | _ => true end
  | JObj fields => match fields with [] => false | _ => true end
  end.

Definition VALID_STATS : list string :=
  ["sum"; "mean"; "max"; "min"; "count"; "stdev"; "median"].

(** [s in VALID_STATS]: only a string equals a string.  The name is
    returned with the answer, so that the kept elements are strings. *)
Definition in_VALID_STATS (s : json) : option string :=
  match s with
  | JStr t => if existsb (String.eqb t) VALID_STATS then Some t else None
  | _ => None
  end.

(** [[s for s in stats if s in VALID_STATS]] *)
Fixpoint keep_valid (items : list json) : list string :=
  match items with
  | [] => []
  | s :: rest =>
      match in_VALID_STATS s with
      | Some t => t :: keep_valid rest
      | None => keep_valid rest
      end
  end.

(** What a handler answers: the results with status 200, an error message
    with its status, or an exception that no [except] clause of the handler
    catches. *)
Inductive response : Type :=
  | Results (results : list QueryResult)
  | Error (status : Z) (msg : string)
  | Uncaught (e : exn).

(** [str(e)] *)
Definition exn_str (e : exn) : string :=
  match e with
  | KeyError key => "'" ++ key ++ "'"
  | ValueError msg | TypeError msg | IndexError msg | AttributeError msg
  | OverflowError msg | LibraryError msg => msg
  end.

(** [except (KeyError, ValueError, TypeError)] *)
Definition bad_request (e : exn) : bool :=
  match e with
  | KeyError _ | ValueError _ | TypeError _ => true
  | _ => false
  end.

(** The arguments a handler passes to the engine. *)
Record call (A : Type) : Type := {
  call_info : RasterInfo;
  call_stats : list string;
  call_band : Z;
  call_shape : A
}.
Arguments call_info {A} _.
Arguments call_stats {A} _.
Arguments call_band {A} _.
Arguments call_shape {A} _.

Section Server.

Context {E : Externals}.

(** [float(v)] and [int(v)] *)
Definition py_float (v : json) : result float :=
  match v with
  | JFloat f => Ok f
  | JInt z => float_of_int z
  | JBool b => Ok (if b then 1%float else 0%float)
  | JStr s => float_of_str s
  | _ => Raise (TypeError "float() argument must be a string or a real number")
  end.

Definition py_int (v : json) : result Z :=
  match v with
  | JInt z => Ok z
  | JBool b => Ok (if b then 1%Z else 0%Z)
  | JFloat f => int_of_float f
  | JStr s => int_of_str s
  | _ => Raise (TypeError "int() argument must be a string or a real number")
  end.

(** [store.get(raster_id)]: a list or a dict cannot be hashed; a key that
    is not a string is not in the store. *)
Definition store_get (store : gmap string RasterInfo) (raster_id : json)
  : result (option RasterInfo) :=
  match raster_id with
  | JStr s => Ok (get store s)
  | JArr _ | JObj _ => Raise (TypeError "unhashable type")
  | _ => Ok None
  end.

Definition _parse_query_params (store : gmap string RasterInfo) (data : json)
  : result (RasterInfo * list string * Z) :=
  do raster_id <- py_get data "raster_id" JNull;
  if negb (truthy raster_id) then Raise (ValueError "Missing raster_id")
  else
    do found <- store_get store raster_id;
    match found with
    | None => Raise (ValueError "Raster not found. Upload first.")
    | Some info =>
        do requested <- py_get data "stats" (JArr [JStr "sum"]);
        do items <- py_iter requested;
        let stat_names := keep_valid items in
        let stat_names := match stat_names with [] => ["sum"] | _ => stat_names end in
        do b <- py_get data "band" (JInt 1);
        do band <- py_int b;
        Ok (info, stat_names, band)
    end.

(** [float(data[key])] *)
Definition float_field (data : json) (key : string) : result float :=
  do v <- py_getitem data key;
  py_float v.

(** [[float(x) for x in data[key]]] *)
Definition float_list_field (data : json) (key : string) : result (list float) :=
  do v <- py_getitem data key;
  do items <- py_iter v;
  for_each py_float items.

(** The first [try] block of each handler. *)
Definition circle_params (store : gmap string RasterInfo) (data : json)
  : result (call (float * float * list float)) :=
  do common <- _parse_query_params store data;
  let '(info, stat_names, band) := common in
  do lon <- float_field data "lon";
  do lat <- float_field data "lat";
  do radii <- float_list_field data "radii_km";
  match radii with
  | [] => Raise (ValueError "No radii provided")
  | _ => Ok {| call_info := info; call_stats := stat_names; call_band := band;
               call_shape := (lon, lat, radii) |}
  end.

Definition band_params (store : gmap string RasterInfo) (data : json)
  : result (call (float * float * list float)) :=
  do common <- _parse_query_params store data;
  let '(info, stat_names, band) := common in
  do lon <- float_field data "lon";
  do lat <- float_field data "lat";
  do edges <- float_list_field data "edges_km";
  if (length edges <? 2)%nat then Raise (ValueError "Need at least 2 edges")
  else Ok {| call_info := info; call_stats := stat_names; call_band := band;
             call_shape := (lon, lat, edges) |}.

Definition rect_params (store : gmap string RasterInfo) (data : json)
  : result (call (float * float * float * float)) :=
  do common <- _parse_query_params store data;
  let '(info, stat_names, band) := common in
  do lon <- float_field data "lon";
  do lat <- float_field data "lat";
  do half_w <- float_field data "half_w_km";
  do half_h <- float_field data "half_h_km";
  Ok {| call_info := info; call_stats := stat_names; call_band := band;
        call_shape := (lon, lat, half_w, half_h) |}.

(** [pt["lat"] = float(pt["lat"]); pt["lon"] = float(pt["lon"])] *)
Definition convert_point (pt : json) : result json :=
  do v <- py_getitem pt "lat";
  do lat <- py_float v;
  match pt with
  | JObj fields =>
      let pt := JObj (dict_set fields "lat" (JFloat lat)) in
      do v <- py_getitem pt "lon";
      do lon <- py_float v;
      match pt with
      | JObj fields => Ok (JObj (dict_set fields "lon" (JFloat lon)))
      | _ => Raise (TypeError "object does not support item assignment")
      end
  | _ => Raise (TypeError "object does not support item assignment")
  end.

(** [query_compare] passes these points, dicts as they are, to
    [run_compare_query]. *)
Definition compare_params (store : gmap string RasterInfo) (data : json)
  : result (call (float * list json)) :=
  do common <- _parse_query_params store data;
  let '(info, stat_names, band) := common in
  do radius <- float_field data "radius_km";
  do v <- py_getitem data "points";
  do pts <- py_iter v;
  do points <- for_each convert_point pts;
  Ok {| call_info := info; call_stats := stat_names; call_band := band;
        call_shape := (radius, points) |}.

(** The two [try] blocks of a handler: an exception of the first that is a
    [KeyError], [ValueError] or [TypeError] is answered with status 400, any
    exception of the engine with status 500. *)
Definition handle {A : Type} (params : result (call A))
    (run : call A -> result (list QueryResult)) : response :=
  match params with
  | Raise e => if bad_request e then Error 400 (exn_str e) else Uncaught e
  | Ok c =>
      match run c with
      | Ok results => Results results
      | Raise e => Error 500 ("Query failed: " ++ exn_str e)
      end
  end.

Definition query_circle (store : gmap string RasterInfo) (data : json) : response :=
  handle (circle_params store data)
    (fun c => let '(lon, lat, radii) := call_shape c in
      run_circle_query (ri_path (call_info c)) lon lat radii (call_stats c) (call_band c)).

Definition query_band (store : gmap string RasterInfo) (data : json) : response :=
  handle (band_params store data)
    (fun c => let '(lon, lat, edges) := call_shape c in
      run_band_query (ri_path (call_info c)) lon lat edges (call_stats c) (call_band c)).

Definition query_rect (store : gmap string RasterInfo) (data : json) : response :=
  handle (rect_params store data)
    (fun c => let '(lon, lat, half_w, half_h) := call_shape c in
      run_rect_query (ri_path (call_info c)) lon lat half_w half_h (call_stats c) (call_band c)).

End Server.

(* ================================================================== *)
(** * The raster store on disk, uploads and the CSV export *)

(** What the store and the export call of the operating system and of the
    standard library.  [disk] is the state of the file system; an operation
    on it returns the new state and the [OSError] it raised, if any. *)
Class Platform : Type := {
  disk : Type;
  (** [Path(filename).suffix] *)
  path_suffix : string -> string;
  (** [with open(path, "wb") as f: f.write(data)], [os.path.exists(path)],
      [os.unlink(path)], [os.rmdir(path)] *)
  os_write : string -> list Byte.byte -> disk -> disk * option exn;
  os_exists : string -> disk -> bool;
  os_unlink : string -> disk -> disk * option exn;
  os_rmdir : string -> disk -> disk * option exn;
  (** [csv.writer(output)], one [writerow] per row, then [output.getvalue()] *)
  csv_text : list (list json) -> string
}.

(** The attributes of a [RasterStore]. *)
Record RasterStore : Type := {
  _rasters : gmap string RasterInfo;
  _tmp_dir : string
}.

(** What a view function returns: a JSON body with its status, or an
    exception that leaves the function. *)
Inductive reply : Type :=
  | Reply (status : Z) (body : json)
  | Crash (e : exn).

Definition error_body (msg : string) : json := JObj [("error", JStr msg)].

Section StoreOnDisk.

Context {E : Externals} {P : Platform}.

(** [os.path.join(self._tmp_dir, f"{raster_id}{ext}")] with
    [ext = Path(filename).suffix or ".tif"], on a system whose separator is
    the slash. *)
Definition upload_path (self : RasterStore) (raster_id filename : string) : string :=
  let ext := match path_suffix filename with
             | EmptyString => ".tif"
             | suffix => suffix
             end in
  _tmp_dir self ++ "/" ++ raster_id ++ ext.

(** [RasterStore.load], with the file it writes: the registry is assigned
    last, after the file was written and read. *)
Definition store_load (self : RasterStore) (d : disk)
    (raster_id filename : string) (data : list Byte.byte)
  : disk * result (RasterStore * (string * RasterInfo)) :=
  let path := upload_path self raster_id filename in
  let '(d, raised) := os_write path data d in
  match raised with
  | Some e => (d, Raise e)
  | None =>
      match load (_rasters self) raster_id path with
      | Ok (rasters, out) =>
          (d, Ok ({| _rasters := rasters; _tmp_dir := _tmp_dir self |}, out))
      | Raise e => (d, Raise e)
      end
  end.

(** [RasterStore.remove]: the entry is popped, its file unlinked when it
    exists, and an [OSError] of the unlink is passed over. *)
Definition store_remove (self : RasterStore) (d : disk) (raster_id : string)
  : RasterStore * disk :=
  match _rasters self !! raster_id with
  | None => (self, d)
  | Some info =>
      let self := {| _rasters := delete raster_id (_rasters self);
                     _tmp_dir := _tmp_dir self |} in
      if os_exists (ri_path info) d
      then (self, fst (os_unlink (ri_path info) d))
      else (self, d)
  end.

(** [RasterStore.cleanup_all]: [rids] is [list(self._rasters.keys())], the
    registered identifiers in the order of their insertion, which the map
    does not record. *)
Definition store_cleanup_all (self : RasterStore) (d : disk) (rids : list string)
  : RasterStore * disk :=
  let '(self, d) :=
    fold_left (fun sd rid => store_remove (fst sd) (snd sd) rid) rids (self, d) in
  (self, fst (os_rmdir (_tmp_dir self) d)).

(** ** The handlers that change the store *)

Definition status : reply :=
  Reply 200 (JObj [("ok", JBool true); ("exactextract", JBool HAS_EXACT)]).

Definition json_of_nodata (nd : option float) : json :=
  match nd with
  | Some v => JFloat v
  | None => JNull
  end.

(** The body of a successful upload. *)
Definition upload_body (raster_id filename : string) (info : RasterInfo) : json :=
  let '(west, south, east, north) := ri_bounds info in
  JObj [("raster_id", JStr raster_id);
        ("filename", JStr filename);
        ("crs", JStr (ri_crs info));
        ("width", JInt (ri_width info));
        ("height", JInt (ri_height info));
        ("res", JArr [JFloat (ri_res_x info); JFloat (ri_res_y info)]);
        ("bands", JInt (ri_bands info));
        ("nodata", json_of_nodata (ri_nodata info));
        ("bounds", JObj [("west", JFloat west); ("south", JFloat south);
                         ("east", JFloat east); ("north", JFloat north)]);
        ("bounds_polygon",
         JArr (map (fun c => JArr [JFloat (fst c); JFloat (snd c)])
                   (ri_bounds_polygon info)))].

(** [upload_raster]: [file] is [request.files.get("file")], its name and
    its content, and [raster_id] the identifier [uuid4] draws. *)
Definition upload_raster (self : RasterStore) (d : disk)
    (file : option (string * list Byte.byte)) (raster_id : string)
  : RasterStore * disk * reply :=
  match file with
  | None => (self, d, Reply 400 (error_body "No file provided"))
  | Some (filename, data) =>
      if String.eqb filename "" then (self, d, Reply 400 (error_body "Empty filename"))
      else
        match data with
        | [] => (self, d, Reply 400 (error_body "Empty file"))
        | _ =>
            match store_load self d raster_id filename data with
            | (d, Raise e) =>
                (self, d, Reply 400 (error_body ("Failed to load raster: " ++ exn_str e)))
            | (d, Ok (self, (rid, info))) =>
                (self, d, Reply 200 (upload_body rid filename info))
            end
        end
  end.

Definition unload_raster (self : RasterStore) (d : disk) (raster_id : string)
  : RasterStore * disk * reply :=
  let '(self, d) := store_remove self d raster_id in
  (self, d, Reply 200 (JObj [("ok", JBool true)])).

(** ** The CSV export *)

(** [r.get("stats", {}).keys()] *)
Definition stat_keys (r : json) : result (list string) :=
  do st <- py_get r "stats" (JObj []);
  match st with
  | JObj fields => Ok (map fst fields)
  | _ => Raise (AttributeError "object has no attribute 'keys'")
  end.

(** [all_keys]: the keys of every result gathered in a set, those that
    start with an underscore left out, sorted. *)
Definition export_columns (results : list json) : result (list string) :=
  do keys <- for_each stat_keys results;
  Ok (PyStr.sorted
        (List.filter (fun k => negb (PyStr.startswith_underscore k))
                     (PyStr.set (concat keys)))).

(** [r.get("stats", {}).get(k, "")] *)
Definition export_cell (r : json) (k : string) : result json :=
  do st <- py_get r "stats" (JObj []);
  py_get st k (JStr "").

Definition export_row (all_keys : list string) (r : json) : result (list json) :=
  do lbl <- py_getitem r "label";
  do cells <- for_each (export_cell r) all_keys;
  Ok (lbl :: cells).

(** The rows handed to the writer: the header, then one row per result. *)
Definition export_rows (results : list json) : result (list (list json)) :=
  do all_keys <- export_columns results;
  do rows <- for_each (export_row all_keys) results;
  Ok ((JStr "label" :: map JStr all_keys) :: rows).

(** [export_csv]: no [try] block, an exception leaves the handler. *)
Definition export_csv (data : json) : reply :=
  match py_get data "results" (JArr []) with
  | Raise e => Crash e
  | Ok results =>
      if negb (truthy results) then Reply 400 (error_body "No results")
      else
        match (do items <- py_iter results; export_rows items) with
        | Raise e => Crash e
        | Ok rows => Reply 200 (JObj [("csv", JStr (csv_text rows))])
        end
  end.

End StoreOnDisk.

(* ================================================================== *)
(** * Stand-ins for the libraries

    Concrete values of [Externals] on which the definitions above run:
    a flat earth, rasters given as arrays, and reductions written with the
    float operations.  They serve the examples; no statement below that
    quantifies over [Externals] depends on them. *)

Module Demo.

Local Open Scope float_scope.

(** [repr] of a float: as Python prints it for the zeros, the infinities,
    NaN and the integral values below 10^16; the fractional part of any
    other value is left out. *)
Definition repr (x : float) : string :=
  match Prim2SF x with
  | S754_zero s => if s then "-0.0" else "0.0"
  | S754_infinity s => if s then "-inf" else "inf"
  | S754_nan => "nan"
  | S754_finite s m e =>
      let v := if (0 <=? e)%Z then (Z.pos m * 2 ^ e)%Z else (Z.pos m / 2 ^ (- e))%Z in
      (if s then "-" else "") ++ pretty (Z.to_N v) ++ ".0"
  end.

(** A flat earth of 111 km to the degree, on which the points at a given
    distance form a diamond: north at azimuth 0, east at 90. *)
Definition fwd (lon lat az dist : float) : coord :=
  let d := dist / 111000 in
  if PyFloat.lt az 90 then (lon + d * (az / 90), lat + d * (1 - az / 90))
  else if PyFloat.lt az 180 then (lon + d * (1 - (az - 90) / 90), lat - d * ((az - 90) / 90))
  else if PyFloat.lt az 270 then (lon - d * ((az - 180) / 90), lat - d * (1 - (az - 180) / 90))
  else (lon - d * (1 - (az - 270) / 90), lat + d * ((az - 270) / 90)).

Definition scale (src dst : string) (c : coord) : coord :=
  if String.eqb dst WGS84 then (fst c / 111000, snd c / 111000)
  else (fst c * 111000, snd c * 111000).

(** The outer polygon with the exterior of the inner one as its hole. *)
Definition ring_difference (a b : Polygon) : Polygon :=
  match exterior b with
  | [] => a
  | hole => {| exterior := exterior a; interiors := hole :: interiors a |}
  end.

Definition sum (vs : list float) : float := fold_left PrimFloat.add vs 0.

Definition mean (vs : list float) : float := sum vs / float_of_nat (length vs).

Definition maximum (vs : list float) : float :=
  match vs with [] => nan | v :: rest => PyFloat.max v rest end.

Definition minimum (vs : list float) : float :=
  match vs with [] => nan | v :: rest => PyFloat.min v rest end.

Definition std (vs : list float) : float :=
  let m := mean vs in
  PrimFloat.sqrt (mean (map (fun v => (v - m) * (v - m)) vs)).

Definition median (vs : list float) : float :=
  let s := PyFloat.sorted vs in
  let k := length s in
  if Nat.even k
  then (nth (k / 2 - 1) s nan + nth (k / 2) s nan) / 2
  else nth (k / 2) s nan.

(** exactextract refuses a statistic it does not know. *)
Definition extract (tif_path : string) (geom : Polygon) (stat_names : list string)
  : result (gmap string float) :=
  match List.filter (fun s => negb (existsb (String.eqb s)
                  ["sum"; "mean"; "max"; "min"; "count"; "stdev"; "median"])) stat_names with
  | s :: _ => Raise (LibraryError ("Unsupported stat: " ++ s))
  | [] => Ok (list_to_map [("sum", 40); ("mean", 10); ("max", 10); ("min", 10);
                           ("count", 4); ("stdev", 0); ("median", 10)])
  end.

(** A world with one raster file, ["dem.tif"], read as [ds], whose mask
    step returns the one-band array [arr] for every polygon. *)
Definition world (has_exact : bool) (ds : Dataset) (arr : list pixel) : Externals :=
  {| float_repr := repr;
     float_of_str := fun s => Raise (ValueError "could not convert string to float");
     float_of_int := fun z => Ok (PrimFloat.of_uint63 (Uint63.of_Z z));
     int_of_str := fun s => Raise (ValueError "invalid literal for int()");
     int_of_float := fun x => Raise (ValueError "cannot convert float to integer");
     geod_fwd := fwd;
     Transformer_from_crs := scale;
     difference := ring_difference;
     rasterio_open := fun path =>
       if String.eqb path "dem.tif" then Ok ds
       else Raise (LibraryError "No such file or directory");
     rio_mask := fun _ _ _ => Ok [arr];
     np_sum := sum;
     np_mean := mean;
     np_max := maximum;
     np_min := minimum;
     np_std := std;
     np_median := median;
     HAS_EXACT := has_exact;
     exact_extract := extract |}.

Definition utm33 : CRS := {| crs_name := "EPSG:32633"; is_geographic := false |}.
Definition wgs84 : CRS := {| crs_name := "EPSG:4326"; is_geographic := true |}.

(** A raster of one degree at the equator, nodata -9999. *)
Definition dem (crs : CRS) : Dataset :=
  {| ds_crs := Some crs;
     ds_left := 10; ds_bottom := 0; ds_right := 11; ds_top := 1;
     ds_width := 128; ds_height := 128;
     ds_res := (0.0078125, 0.0078125);
     ds_count := 1;
     ds_nodata := Some (-9999) |}.

Definition px (v : float) : pixel := {| value := v; masked := false |}.
Definition hidden (v : float) : pixel := {| value := v; masked := true |}.

(** Four pixels of value 10 inside the shape, one outside. *)
Definition constant_10 : list pixel := [px 10; px 10; hidden 10; px 10; px 10].


Definition mask_world : Externals := world false (dem wgs84) constant_10.
Definition exact_world : Externals := world true (dem wgs84) constant_10.



(** The store after the upload of ["dem.tif"] under the identifier
    ["r1"]. *)
Definition store : gmap string RasterInfo :=
  match load (E := mask_world) ∅ "r1" "dem.tif" with
  | Ok (rasters, _) => rasters
  | Raise _ => ∅
  end.

(** The body of a band request whose two edges are the same value. *)
Definition duplicate_edges_request : json :=
  JObj [("raster_id", JStr "r1"); ("lon", JFloat 10.5); ("lat", JFloat 0.5);
        ("edges_km", JArr [JFloat 5; JFloat 5]); ("stats", JArr [JStr "sum"])].

Definition labels (r : result (list QueryResult)) : list string :=
  match r with
  | Ok results => map label results
  | Raise _ => []
  end.

End Demo.

(** A file system and a CSV writer for the examples: the disk is the set of
    the paths that exist. *)
Module DemoOS.

(** The part of a name from its last dot on. *)
Fixpoint suffix (filename : string) : string :=
  match filename with
  | EmptyString => EmptyString
  | String c rest =>
      match suffix rest with
      | EmptyString => if Ascii.eqb c "."%char then filename else EmptyString
      | found => found
      end
  end.

Definition write (path : string) (data : list Byte.byte) (d : gset string)
  : gset string * option exn :=
  ({[path]} ∪ d, None).

Definition unlink (path : string) (d : gset string) : gset string * option exn :=
  if decide (path ∈ d) then (d ∖ {[path]}, None)
  else (d, Some (LibraryError "No such file or directory")).

Definition rmdir (path : string) (d : gset string) : gset string * option exn :=
  (d, None).

Definition crlf : string := String (ascii_of_nat 13) (String (ascii_of_nat 10) EmptyString).

(** A cell as text, for strings, numbers and null; no quoting. *)
Definition cell_text (c : json) : string :=
  match c with
  | JStr s => s
  | JFloat x => Demo.repr x
  | JInt z => pretty z
  | JBool b => if b then "True" else "False"
  | JNull => EmptyString
  | _ => "?"
  end.

Definition rows_text (rows : list (list json)) : string :=
  String.concat EmptyString
    (map (fun row => (String.concat "," (map cell_text row) ++ crlf)%string) rows).

Definition platform : Platform :=
  {| disk := gset string;
     path_suffix := suffix;
     os_write := write;
     os_exists := fun path d => bool_decide (path ∈ d);
     os_unlink := unlink;
     os_rmdir := rmdir;
     csv_text := rows_text |}.

(** A store that starts empty in the directory ["/tmp/geo_analyzer_x"]. *)
Definition empty_store : RasterStore :=
  {| _rasters := ∅; _tmp_dir := "/tmp/geo_analyzer_x" |}.

(** A world in which the uploaded file ["/tmp/geo_analyzer_x/r1.tif"] is
    the raster of [Demo.dem], and every other file is no raster. *)
Definition world : Externals :=
  {| float_repr := Demo.repr;
     float_of_str := float_of_str (Externals := Demo.mask_world);
     float_of_int := float_of_int (Externals := Demo.mask_world);
     int_of_str := int_of_str (Externals := Demo.mask_world);
     int_of_float := int_of_float (Externals := Demo.mask_world);
     geod_fwd := Demo.fwd;
     Transformer_from_crs := Demo.scale;
     difference := Demo.ring_difference;
     rasterio_open := fun path =>
       if String.eqb path "/tmp/geo_analyzer_x/r1.tif" then Ok (Demo.dem Demo.wgs84)
       else Raise (LibraryError "not recognized as a supported file format");
     rio_mask := fun _ _ _ => Ok [Demo.constant_10];
     np_sum := Demo.sum;
     np_mean := Demo.mean;
     np_max := Demo.maximum;
     np_min := Demo.minimum;
     np_std := Demo.std;
     np_median := Demo.median;
     HAS_EXACT := false;
     exact_extract := Demo.extract |}.

(** The store and the disk after the upload of ["dem.tif"], one byte long,
    under the identifier ["r1"]. *)
Definition loaded : RasterStore * gset string :=
  fst (upload_raster (E := world) (P := platform)
         empty_store ∅ (Some ("dem.tif", [Byte.x00])) "r1").

(** Two results as the front end sends them back for the export. *)
Definition two_results : json :=
  JArr [ JObj [("label", JStr "Alpha");
               ("stats", JObj [("sum", JFloat 40); ("_lat", JFloat 0.5);
                               ("mean", JFloat 10); ("_lon", JFloat 10.5)])];
         JObj [("label", JStr "Beta");
               ("stats", JObj [("count", JFloat 4); ("mean", JFloat 10)])] ].

End DemoOS.

(* ================================================================== *)
(** * Vocabulary of the statements *)

(** A ring is closed: its first and its last coordinate pair are the same
    pair. *)
Definition closed_ring (r : list coord) : Prop :=
  exists c middle, r = c :: middle ++ [c].

(** The reprojection of a polygon as the design document describes it: the
    whole polygon, every ring of it, mapped into the raster's coordinate
    system. *)
Definition reproject (f : coord -> coord) (geom : Polygon) : Polygon :=
  {| exterior := map f (exterior geom);
     interiors := map (map f) (interiors geom) |}.

(** The names the [if]/[elif] chain of [compute_stats] knows: those of
    [VALID_STATS]. *)
Definition recognized (s : string) : bool := existsb (String.eqb s) VALID_STATS.

(** A list of statistic names the engine may be called with: not empty, and
    every name one of [VALID_STATS]. *)
Definition valid_stats (stat_names : list string) : Prop :=
  stat_names <> [] /\ Forall (fun s => In s VALID_STATS) stat_names.

Section Results.

Context {E : Externals}.

Local Open Scope float_scope.

(** [res] is what the circle query appends for the radius [r]. *)
Definition circle_result (tif_path : string) (lon lat : float)
    (stat_names : list string) (band : Z) (r : float) (res : QueryResult) : Prop :=
  exists circ,
    geodesic_circle lon lat (r * 1000) CIRCLE_PTS = Ok circ /\
    compute_stats tif_path circ stat_names band = Ok (stats res) /\
    geometry_geojson res = mapping circ /\
    label res = (float_repr r ++ " km")%string.

(** [res] is what the band query appends for the edges [inner], [outer]. *)
Definition annulus_result (tif_path : string) (lon lat : float)
    (stat_names : list string) (band : Z) (inner outer : float) (res : QueryResult) : Prop :=
  exists ring,
    geodesic_annulus lon lat (inner * 1000) (outer * 1000) CIRCLE_PTS = Ok ring /\
    compute_stats tif_path ring stat_names band = Ok (stats res) /\
    geometry_geojson res = mapping ring /\
    label res = (float_repr inner ++ "–" ++ float_repr outer ++ " km")%string.

(** [res] is what the compare query appends for the point [pt]. *)
Definition compare_result (tif_path : string) (radius_km : float)
    (stat_names : list string) (band : Z) (pt : NamedPoint) (res : QueryResult) : Prop :=
  exists circ vals,
    geodesic_circle (pt_lon pt) (pt_lat pt) (radius_km * 1000) CIRCLE_PTS = Ok circ /\
    compute_stats tif_path circ stat_names band = Ok vals /\
    geometry_geojson res = mapping circ /\
    stats res = <["_lon" := pt_lon pt]> (<["_lat" := pt_lat pt]> vals) /\
    label res = pt_name pt.

End Results.

(** The cell of the export under the column [k] for the result [r]: the
    statistic [k] of the result, and the empty string when the result has
    no such statistic. *)
Definition stat_or_blank (r : json) (k : string) : json :=
  match r with
  | JObj fields =>
      match dict_lookup fields "stats" with
      | Some (JObj st) =>
          match dict_lookup st k with
          | Some v => v
          | None => JStr ""
          end
      | _ => JStr ""
      end
  | _ => JStr ""
  end.

(* ================================================================== *)
(** * Facts about the order of floats *)

Module FloatFacts.

Import PyFloat.

(** Case analysis on the comparisons inside [SFcompare]. *)
Ltac sf_cases :=
  repeat match goal with
  | s : bool |- _ => destruct s
  | |- context [Z.compare ?a ?b] => destruct (Z.compare_spec a b)
  | H : context [Z.compare ?a ?b] |- _ => destruct (Z.compare_spec a b)
  | |- context [Pos.compare_cont Eq ?a ?b] =>
      change (Pos.compare_cont Eq a b) with (Pos.compare a b)
  | H : context [Pos.compare_cont Eq ?a ?b] |- _ =>
      change (Pos.compare_cont Eq a b) with (Pos.compare a b) in H
  | |- context [Pos.compare ?a ?b] => destruct (Pos.compare_spec a b)
  | H : context [Pos.compare ?a ?b] |- _ => destruct (Pos.compare_spec a b)
  end.

Ltac sf_crush :=
  unfold SFeqb, SFltb, SFcompare; simpl; try congruence;
  sf_cases; simpl; try congruence; try lia.

Lemma SFltb_asym x y : SFltb x y = true -> SFltb y x = false.
Proof. destruct x, y; sf_crush. Qed.

Lemma SFltb_negtrans x y z :
  y <> S754_nan ->
  SFltb y x = false -> SFltb z y = false -> SFltb z x = false.
Proof. intros Hy. destruct x, y, z; sf_crush. Qed.

Lemma SFeqb_ltb x y :
  x <> S754_nan -> y <> S754_nan ->
  SFeqb x y = negb (SFltb x y) && negb (SFltb y x).
Proof. intros Hx Hy. destruct x, y; sf_crush. Qed.

Lemma SFeqb_refl x : x <> S754_nan -> SFeqb x x = true.
Proof. intros Hx. destruct x; sf_crush. Qed.

Lemma SFeqb_nan_l x : SFeqb S754_nan x = false.
Proof. reflexivity. Qed.

Lemma SFeqb_nan_r x : SFeqb x S754_nan = false.
Proof. destruct x; reflexivity. Qed.

Lemma SFeqb_sym x y : SFeqb x y = SFeqb y x.
Proof. destruct x, y; sf_crush. Qed.

Lemma is_num_spec x : is_num x <-> Prim2SF x <> S754_nan.
Proof.
  unfold is_num, PrimFloat.is_nan. rewrite FloatAxioms.eqb_spec. split.
  - intros H Hn. rewrite Hn in H. discriminate.
  - intros H. now rewrite SFeqb_refl.
Qed.

Lemma lt_asym x y : lt x y = true -> lt y x = false.
Proof. unfold lt. rewrite !FloatAxioms.ltb_spec. apply SFltb_asym. Qed.

Lemma lt_irrefl x : lt x x = false.
Proof. destruct (lt x x) eqn:H; [|reflexivity]. now rewrite (lt_asym _ _ H) in H. Qed.

Lemma le_refl x : le x x.
Proof. apply lt_irrefl. Qed.

Lemma le_trans x y z : is_num y -> le x y -> le y z -> le x z.
Proof.
  unfold le, lt. rewrite !FloatAxioms.ltb_spec, is_num_spec. intros Hy Hxy Hyz.
  now apply SFltb_negtrans with (y := Prim2SF y).
Qed.

Lemma lt_le x y : lt x y = true -> le x y.
Proof. apply lt_asym. Qed.

Lemma eq_sym x y : eq x y = eq y x.
Proof. unfold eq. rewrite !FloatAxioms.eqb_spec. apply SFeqb_sym. Qed.

Lemma eq_is_num x y : eq x y = true -> is_num x /\ is_num y.
Proof.
  unfold eq. rewrite FloatAxioms.eqb_spec, !is_num_spec. intros H. split; intros Hn; rewrite Hn in H.
  - now rewrite SFeqb_nan_l in H.
  - now rewrite SFeqb_nan_r in H.
Qed.

Lemma eq_refl x : is_num x -> eq x x = true.
Proof. unfold eq. rewrite FloatAxioms.eqb_spec, is_num_spec. apply SFeqb_refl. Qed.

(** On numbers, [==] holds exactly when neither [<] does. *)
Lemma eq_lt x y : is_num x -> is_num y -> eq x y = negb (lt x y) && negb (lt y x).
Proof. unfold eq, lt. rewrite FloatAxioms.eqb_spec, !FloatAxioms.ltb_spec, !is_num_spec. apply SFeqb_ltb. Qed.

Lemma eq_le x y : eq x y = true -> le x y /\ le y x.
Proof.
  intros H. destruct (eq_is_num _ _ H) as [Hx Hy].
  rewrite (eq_lt _ _ Hx Hy) in H. apply andb_true_iff in H as [H1 H2].
  apply negb_true_iff in H1, H2. now split.
Qed.

Lemma le_le_eq x y : is_num x -> is_num y -> le x y -> le y x -> eq x y = true.
Proof.
  intros Hx Hy H1 H2. rewrite (eq_lt _ _ Hx Hy). unfold le in *. now rewrite H1, H2.
Qed.

Lemma eq_trans x y z : eq x y = true -> eq y z = true -> eq x z = true.
Proof.
  intros Hxy Hyz.
  destruct (eq_is_num _ _ Hxy) as [Hx Hy]. destruct (eq_is_num _ _ Hyz) as [_ Hz].
  destruct (eq_le _ _ Hxy) as [A1 A2]. destruct (eq_le _ _ Hyz) as [B1 B2].
  apply le_le_eq; trivial.
  - now apply le_trans with (y := y).
  - now apply le_trans with (y := y).
Qed.

Lemma SFeqb_same_or_zeros x y :
  SFeqb x y = true ->
  x = y \/ (exists s, x = S754_zero s) /\ (exists s, y = S754_zero s).
Proof.
  unfold SFeqb, SFcompare.
  destruct x as [sx|sx| |sx mx ex], y as [sy|sy| |sy my ey]; simpl; try discriminate;
    try (intros _; right; now eauto);
    sf_cases; simpl; try discriminate; intros _; left; now subst.
Qed.

(** Two floats that compare equal are one value, or are both zeros. *)
Lemma eq_same_or_zeros x y :
  eq x y = true -> x = y \/ (eq x 0%float = true /\ eq y 0%float = true).
Proof.
  unfold eq. rewrite !FloatAxioms.eqb_spec. intros H.
  apply SFeqb_same_or_zeros in H as [H|[[sx Hx] [sy Hy]]].
  - left. now apply Prim2SF_inj.
  - right. rewrite Hx, Hy. split; reflexivity.
Qed.

(** [0.0] and [-0.0] are equal for [==] and are two values. *)
Lemma zero_eq_neg_zero : eq 0%float (-0)%float = true.
Proof. reflexivity. Qed.

Lemma zero_neq_neg_zero : 0%float <> (-0)%float.
Proof.
  intros H. apply (f_equal (fun x => lt (1 / x)%float 0%float)) in H.
  vm_compute in H. discriminate.
Qed.

End FloatFacts.

(* ================================================================== *)
(** * Facts about [sorted] and [set] *)

Module SortFacts.

Import PyFloat FloatFacts.

Lemma insort_perm x l : Permutation (insort x l) (x :: l).
Proof.
  induction l as [|y ys IH]; simpl; [reflexivity|].
  destruct (lt y x); [|reflexivity].
  rewrite IH. apply perm_swap.
Qed.

Lemma sorted_perm l : Permutation (sorted l) l.
Proof.
  induction l as [|x xs IH]; simpl; [reflexivity|].
  rewrite insort_perm. now constructor.
Qed.

Lemma sorted_length l : length (sorted l) = length l.
Proof. apply Permutation_length, sorted_perm. Qed.

Lemma sorted_In x l : In x (sorted l) <-> In x l.
Proof.
  split; apply Permutation_in; [apply sorted_perm | symmetry; apply sorted_perm].
Qed.

Lemma sorted_Forall (P : float -> Prop) l : Forall P l -> Forall P (sorted l).
Proof. apply Permutation_Forall. symmetry. apply sorted_perm. Qed.

Lemma insort_sorted x l :
  Forall is_num l -> StronglySorted le l -> StronglySorted le (insort x l).
Proof.
  intros Hnum Hs. induction Hs as [|y ys Hs IH Hy]; simpl.
  - repeat constructor.
  - inversion Hnum as [|? ? Hny Hnys]; subst.
    destruct (lt y x) eqn:Hlt.
    + constructor; [now apply IH|].
      apply (Permutation_Forall (Permutation_sym (insort_perm x ys))).
      constructor; [now apply lt_le | exact Hy].
    + constructor; [now constructor|].
      constructor; [exact Hlt|].
      apply List.Forall_forall. intros z Hz.
      apply le_trans with (y := y); [exact Hny | exact Hlt |].
      rewrite List.Forall_forall in Hy. now apply Hy.
Qed.

Lemma sorted_sorted l : Forall is_num l -> StronglySorted le (sorted l).
Proof.
  induction 1 as [|x xs Hx Hxs IH]; simpl; [constructor|].
  apply insort_sorted; [now apply sorted_Forall | exact IH].
Qed.

(** Two ascending lists with the same elements are the same list, when
    elements that compare equal are one value. *)
Lemma ascending_unique l1 : forall l2,
  Forall is_num l1 -> separated l1 ->
  StronglySorted le l1 -> StronglySorted le l2 -> Permutation l1 l2 -> l1 = l2.
Proof.
  induction l1 as [|a t1 IH]; intros l2 Hnum Hsep H1 H2 Hp.
  - apply Permutation_nil in Hp. now subst.
  - destruct l2 as [|b t2]; [symmetry in Hp; now apply Permutation_nil in Hp|].
    inversion H1 as [|? ? H1t H1a]; subst. inversion H2 as [|? ? H2t H2b]; subst.
    inversion Hnum as [|? ? Hna Hnt]; subst.
    assert (Hb : In b (a :: t1)).
    { apply (Permutation_in b (Permutation_sym Hp)). now left. }
    assert (Ha : In a (b :: t2)).
    { apply (Permutation_in a Hp). now left. }
    assert (Hnb : is_num b).
    { rewrite List.Forall_forall in Hnum. now apply Hnum. }
    assert (Hab : a = b).
    { destruct Hb as [Hb|Hb]; [exact Hb|].
      destruct Ha as [Ha|Ha]; [now symmetry|].
      rewrite List.Forall_forall in H1a, H2b.
      apply Hsep; [now left | now right |].
      apply le_le_eq; auto. }
    subst b. f_equal.
    apply IH; trivial.
    + intros x y Hx Hy. apply Hsep; now right.
    + now apply Permutation_cons_inv with (a := a).
Qed.

(** [sorted] does not depend on the order of its argument, for numbers of
    which those that compare equal are one value. *)
Lemma sorted_perm_invariant l l' :
  Forall is_num l -> separated l -> Permutation l l' -> sorted l = sorted l'.
Proof.
  intros Hnum Hsep Hp.
  assert (Hnum' : Forall is_num l') by now apply (Permutation_Forall Hp).
  apply ascending_unique.
  - now apply sorted_Forall.
  - intros x y Hx Hy. apply Hsep; now apply sorted_In.
  - now apply sorted_sorted.
  - now apply sorted_sorted.
  - rewrite sorted_perm, Hp. symmetry. apply sorted_perm.
Qed.

(** [sorted] is stable: an ascending list is returned as it is. *)
Lemma sorted_ascending l : StronglySorted le l -> sorted l = l.
Proof.
  induction 1 as [|x xs Hs IH Hx]; simpl; [reflexivity|].
  rewrite IH. destruct xs as [|y ys]; simpl; [reflexivity|].
  inversion Hx as [|? ? Hxy _]; subst. unfold le in Hxy. now rewrite Hxy.
Qed.

(** *** [set] *)

Lemma existsb_eq_false x l :
  existsb (eq x) l = false <-> Forall (fun y => eq x y = false) l.
Proof.
  induction l as [|y ys IH]; simpl.
  - split; [constructor | reflexivity].
  - rewrite orb_false_iff, IH. split.
    + intros [? ?]. now constructor.
    + inversion 1; now subst.
Qed.

Lemma existsb_eq_true x l :
  existsb (eq x) l = true <-> exists y, In y l /\ eq x y = true.
Proof. apply existsb_exists. Qed.

Lemma set_from_nil l : set l = set_from [] l.
Proof. reflexivity. Qed.

Lemma pairwise_distinct_snoc seen x :
  pairwise_distinct seen -> existsb (eq x) seen = false ->
  pairwise_distinct (seen ++ [x]).
Proof.
  unfold pairwise_distinct. intros Hs Hx. rewrite existsb_eq_false in Hx.
  induction Hs as [|a l Ha Hl IH]; simpl.
  - repeat constructor.
  - inversion Hx as [|? ? Hxa Hxl]; subst. constructor.
    + apply List.Forall_app. split; [exact Ha|]. constructor; [|constructor].
      now rewrite eq_sym.
    + now apply IH.
Qed.

Lemma set_from_distinct l : forall seen,
  pairwise_distinct seen -> pairwise_distinct (set_from seen l).
Proof.
  induction l as [|x xs IH]; intros seen Hs; simpl; [exact Hs|].
  apply IH. unfold set_add. destruct (existsb (eq x) seen) eqn:Hx; [exact Hs|].
  now apply pairwise_distinct_snoc.
Qed.

Lemma set_distinct l : pairwise_distinct (set l).
Proof. rewrite set_from_nil. apply set_from_distinct. constructor. Qed.

Lemma set_from_In l : forall seen y,
  In y (set_from seen l) -> In y seen \/ In y l.
Proof.
  induction l as [|x xs IH]; intros seen y Hy; simpl in *; [now left|].
  apply IH in Hy as [Hy|Hy]; [|now right; right].
  unfold set_add in Hy. destruct (existsb (eq x) seen); [now left|].
  apply in_app_or in Hy as [Hy|[Hy|[]]]; [now left | now right; left].
Qed.

Lemma set_In y l : In y (set l) -> In y l.
Proof. intros H. rewrite set_from_nil in H. now apply set_from_In in H as [[]|H]. Qed.

Lemma set_from_seen l : forall seen y, In y seen -> In y (set_from seen l).
Proof.
  induction l as [|x xs IH]; intros seen y Hy; simpl; [exact Hy|].
  apply IH. unfold set_add. destruct (existsb (eq x) seen); [exact Hy|].
  apply in_or_app. now left.
Qed.

(** Every element of the list is in the set, itself or through a value
    equal to it. *)
Lemma set_from_covers l : forall seen x,
  In x l -> In x (set_from seen l) \/ exists y, In y (set_from seen l) /\ eq x y = true.
Proof.
  induction l as [|a xs IH]; intros seen x Hx; simpl in *; [contradiction|].
  destruct Hx as [->|Hx]; [|now apply IH].
  unfold set_add. destruct (existsb (eq x) seen) eqn:Hs.
  - right. apply existsb_eq_true in Hs as (y & Hy & Hxy).
    exists y. split; [now apply set_from_seen | exact Hxy].
  - left. apply set_from_seen, in_or_app. right. now left.
Qed.

Lemma set_covers l x :
  In x l -> In x (set l) \/ exists y, In y (set l) /\ eq x y = true.
Proof. rewrite set_from_nil. apply set_from_covers. Qed.

Lemma set_Forall (P : float -> Prop) l : Forall P l -> Forall P (set l).
Proof.
  rewrite !List.Forall_forall. intros H y Hy. apply H. now apply set_In.
Qed.

Lemma count_new_nil l : count_new [] l = count_distinct l.
Proof.
  induction l as [|x xs IH]; simpl; [reflexivity|].
  now rewrite orb_false_r, IH.
Qed.

Lemma existsb_eq_congr x y l : eq x y = true -> existsb (eq x) l = existsb (eq y) l.
Proof.
  intros Hxy. induction l as [|z zs IH]; simpl; [reflexivity|].
  rewrite IH. f_equal.
  destruct (eq x z) eqn:Hxz, (eq y z) eqn:Hyz; trivial.
  - rewrite eq_sym in Hxy. now rewrite (eq_trans _ _ _ Hxy Hxz) in Hyz.
  - now rewrite (eq_trans _ _ _ Hxy Hyz) in Hxz.
Qed.

Lemma existsb_eq_snoc y seen x :
  existsb (eq y) (seen ++ [x]) = existsb (eq y) seen || eq y x.
Proof. rewrite existsb_app. simpl. now rewrite orb_false_r. Qed.

Lemma count_new_snoc seen x l :
  existsb (eq x) seen = false ->
  count_new seen l = count_new (seen ++ [x]) l + (if existsb (eq x) l then 1 else 0).
Proof.
  intros Hx. induction l as [|y ys IH]; simpl; [reflexivity|].
  rewrite IH, existsb_eq_snoc. destruct (eq y x) eqn:Hyx.
  - assert (Hxy : eq x y = true) by now rewrite eq_sym.
    rewrite Hxy. simpl. rewrite !orb_true_r. simpl.
    rewrite <- (existsb_eq_congr _ _ seen Hxy), Hx.
    rewrite <- (existsb_eq_congr _ _ ys Hxy).
    destruct (existsb (eq x) ys); simpl; lia.
  - assert (Hxy : eq x y = false) by now rewrite eq_sym.
    rewrite Hxy. simpl. rewrite orb_false_r.
    destruct (existsb (eq y) ys || existsb (eq y) seen), (existsb (eq x) ys); simpl; lia.
Qed.

Lemma set_from_length l : forall seen,
  length (set_from seen l) = length seen + count_new seen l.
Proof.
  induction l as [|x xs IH]; intros seen; simpl; [lia|].
  rewrite IH. unfold set_add. destruct (existsb (eq x) seen) eqn:Hs.
  - rewrite orb_true_r. simpl. lia.
  - rewrite orb_false_r. rewrite (count_new_snoc seen x xs Hs).
    rewrite length_app. simpl.
    destruct (existsb (eq x) xs); simpl; lia.
Qed.

(** [len(set(l))] is the number of distinct values of [l]. *)
Lemma set_length l : length (set l) = count_distinct l.
Proof. rewrite set_from_nil, set_from_length, count_new_nil. reflexivity. Qed.

(** An ascending list without two equal values is strictly ascending. *)
Lemma ascending_strict l :
  Forall is_num l -> pairwise_distinct l -> StronglySorted le l ->
  StronglySorted (fun x y => lt x y = true) l.
Proof.
  intros Hnum Hd Hs. induction Hs as [|x xs Hs IH Hx]; [constructor|].
  inversion Hnum as [|? ? Hnx Hnxs]; subst.
  unfold pairwise_distinct in Hd. inversion Hd as [|? ? Hdx Hdxs]; subst.
  constructor; [now apply IH|].
  rewrite List.Forall_forall in *. intros y Hy.
  specialize (Hx y Hy). specialize (Hdx y Hy).
  rewrite (eq_lt x y Hnx (Hnxs y Hy)) in Hdx. unfold le in Hx.
  rewrite Hx in Hdx. simpl in Hdx. rewrite andb_true_r in Hdx.
  now apply negb_false_iff in Hdx.
Qed.

Lemma pairwise_distinct_perm l l' :
  Permutation l l' -> pairwise_distinct l -> pairwise_distinct l'.
Proof.
  unfold pairwise_distinct. intros Hp. induction Hp as [|x l l' Hp IH|x y l|l l' l'' _ IH1 _ IH2]; intros H.
  - exact H.
  - inversion H as [|? ? Hx Hl]; subst. constructor; [|now apply IH].
    now apply (Permutation_Forall Hp).
  - inversion H as [|? ? Hy Hl]; subst. inversion Hl as [|? ? Hx Hl']; subst.
    inversion Hy as [|? ? Hyx Hyl]; subst.
    constructor; [constructor; [now rewrite eq_sym | exact Hx]|].
    now constructor.
  - auto.
Qed.

(** The edges of a band query: strictly ascending. *)
Lemma sorted_set_strict l :
  Forall is_num l -> StronglySorted (fun x y => lt x y = true) (sorted (set l)).
Proof.
  intros Hnum. apply ascending_strict.
  - now apply sorted_Forall, set_Forall.
  - apply (pairwise_distinct_perm (set l)); [symmetry; apply sorted_perm | apply set_distinct].
  - now apply sorted_sorted, set_Forall.
Qed.

(** [sorted] is stable: the elements that compare equal to a value keep the
    order they have in the input. *)
Lemma insort_stable v x l :
  List.filter (eq v) (insort x l) = List.filter (eq v) (x :: l).
Proof.
  induction l as [|y ys IH]; [reflexivity|]. cbn [insort].
  destruct (lt y x) eqn:Hyx; [|reflexivity].
  cbn [List.filter] in *. rewrite IH.
  destruct (eq v y) eqn:Hvy, (eq v x) eqn:Hvx; try reflexivity.
  exfalso. rewrite eq_sym in Hvy.
  destruct (eq_le _ _ (eq_trans _ _ _ Hvy Hvx)) as [_ Hle].
  unfold le in Hle. congruence.
Qed.

Lemma sorted_stable v l : List.filter (eq v) (sorted l) = List.filter (eq v) l.
Proof.
  induction l as [|x xs IH]; [reflexivity|].
  cbn [sorted]. rewrite insort_stable. cbn [List.filter]. now rewrite IH.
Qed.



End SortFacts.

(* ================================================================== *)
(** * Loops and results *)

Section Loops.

Context {A B : Type}.
Implicit Types (f : A -> result B) (l : list A).

Lemma bind_Ok {C D : Type} (r : result C) (k : C -> result D) (d : D) :
  bind r k = Ok d <-> exists c, r = Ok c /\ k c = Ok d.
Proof.
  destruct r as [c|e]; simpl; split.
  - intros H. now exists c.
  - now intros (c' & [= <-] & H).
  - discriminate.
  - now intros (c' & [=] & _).
Qed.

Lemma for_each_Ok f l rs :
  for_each f l = Ok rs <-> Forall2 (fun x r => f x = Ok r) l rs.
Proof.
  revert rs. induction l as [|x xs IH]; intros rs; simpl.
  - split; [intros [= <-]; constructor | inversion 1; reflexivity].
  - rewrite bind_Ok. split.
    + intros (y & Hy & H). apply bind_Ok in H as (ys & Hys & [= <-]).
      constructor; [exact Hy | now apply IH].
    + inversion 1 as [|? r ? rs' Hy Hys]; subst.
      exists r. split; [exact Hy|]. apply IH in Hys. now rewrite Hys.
Qed.

Lemma for_each_total f l :
  (forall x, In x l -> exists r, f x = Ok r) -> exists rs, for_each f l = Ok rs.
Proof.
  induction l as [|x xs IH]; intros H; simpl.
  - now exists [].
  - destruct (H x) as (r & Hr); [now left|].
    destruct IH as (rs & Hrs); [intros y Hy; apply H; now right|].
    exists (r :: rs). now rewrite Hr, Hrs.
Qed.

Lemma for_each_length f l rs : for_each f l = Ok rs -> length rs = length l.
Proof. intros H. apply for_each_Ok in H. symmetry. now apply Forall2_length in H. Qed.

Lemma for_each_nth f l rs i x :
  for_each f l = Ok rs -> nth_error l i = Some x ->
  exists r, nth_error rs i = Some r /\ f x = Ok r.
Proof.
  intros H. apply for_each_Ok in H. revert i.
  induction H as [|a r l' rs' Har _ IH]; intros i Hi.
  - now destruct i.
  - destruct i as [|i]; simpl in *.
    + injection Hi as <-. now exists r.
    + now apply IH.
Qed.

End Loops.

(* ================================================================== *)
(** * Geometry builders *)

Section Geometry.

Context {E : Externals}.

Lemma linspace_length n : length (linspace n) = n.
Proof. unfold linspace. now rewrite length_map, length_seq. Qed.

(** What [geodesic_circle] returns for three points or more: the
    destinations along the [n] azimuths, the first one repeated at the end. *)
Lemma geodesic_circle_Ok lon lat radius_m n :
  (2 < n)%Z ->
  exists first rest,
    map (fun a => geod_fwd lon lat a radius_m) (linspace (Z.to_nat n)) = first :: rest /\
    geodesic_circle lon lat radius_m n = Ok (Polygon_of (first :: rest ++ [first])).
Proof.
  intros Hn. unfold geodesic_circle.
  destruct (n <? 0)%Z eqn:Hneg; [apply Z.ltb_lt in Hneg; lia|].
  destruct (map _ (linspace (Z.to_nat n))) as [|first rest] eqn:Hc.
  - apply (f_equal (@length coord)) in Hc.
    rewrite length_map, linspace_length in Hc. simpl in Hc. lia.
  - exists first, rest. split; [reflexivity|].
    apply (f_equal (@length coord)) in Hc.
    rewrite length_map, linspace_length in Hc.
    change (getitem (first :: rest) 0) with (Ok (A := coord) first). cbn [bind].
    unfold Polygon_new.
    replace (length ((first :: rest) ++ [first])) with (S (Z.to_nat n))
      by (rewrite length_app, Hc; simpl; lia).
    destruct (Z.to_nat n) as [|[|[|k]]] eqn:Hk; try lia. reflexivity.
Qed.


Lemma geodesic_circle_closed lon lat radius_m n p :
  geodesic_circle lon lat radius_m n = Ok p ->
  Forall closed_ring (rings p).
Proof.
  unfold geodesic_circle. destruct (n <? 0)%Z; [discriminate|].
  destruct (map _ (linspace (Z.to_nat n))) as [|first rest]; [discriminate|].
  change (getitem (first :: rest) 0) with (Ok (A := coord) first). cbn [bind].
  unfold Polygon_new.
  destruct ((0 <? _)%nat && _); [discriminate|].
  intros [= <-]. unfold rings. simpl. repeat constructor. now exists first, rest.
Qed.

Lemma box_closed minx miny maxx maxy : Forall closed_ring (rings (box minx miny maxx maxy)).
Proof.
  unfold rings. simpl. repeat constructor.
  now exists (maxx, miny), [(maxx, maxy); (minx, maxy); (minx, miny)].
Qed.

Lemma rect_from_center_closed lon lat half_w_m half_h_m :
  Forall closed_ring (rings (rect_from_center lon lat half_w_m half_h_m)).
Proof.
  unfold rect_from_center.
  destruct (geod_fwd lon lat 0 half_h_m), (geod_fwd lon lat 180 half_h_m),
    (geod_fwd lon lat 90 half_w_m), (geod_fwd lon lat 270 half_w_m).
  apply box_closed.
Qed.

Lemma corners_length ds : length (corners ds) = 4.
Proof.
  unfold corners. destruct (ds_crs ds) as [crs|]; [|reflexivity].
  destruct (negb (is_geographic crs)); [|reflexivity].
  now rewrite length_map.
Qed.

Lemma bounds_ring_closed cs ring : bounds_ring cs = Ok ring -> closed_ring ring.
Proof.
  unfold bounds_ring. destruct cs as [|c rest]; simpl; [discriminate|].
  intros [= <-]. now exists (c.1, c.2), (map (fun c => (c.1, c.2)) rest).
Qed.

Lemma read_info_closed path info :
  read_info path = Ok info -> closed_ring (ri_bounds_polygon info).
Proof.
  unfold read_info. intros H.
  apply bind_Ok in H as (ds & _ & H).
  apply bind_Ok in H as (b & _ & H).
  apply bind_Ok in H as (ring & Hring & [= <-]). simpl.
  now apply bounds_ring_closed in Hring.
Qed.

(** [RasterStore.load] succeeds whenever the file can be opened. *)
Lemma read_info_total path ds :
  rasterio_open path = Ok ds -> exists info, read_info path = Ok info.
Proof.
  intros Hds. unfold read_info. rewrite Hds. simpl.
  pose proof (corners_length ds) as Hlen.
  destruct (corners ds) as [|c rest] eqn:Hc; [discriminate|].
  simpl. eauto.
Qed.

End Geometry.

(** The difference of the stand-in world keeps rings closed. *)
Lemma ring_difference_closed a b :
  Forall closed_ring (rings a) -> Forall closed_ring (rings b) ->
  Forall closed_ring (rings (Demo.ring_difference a b)).
Proof.
  unfold Demo.ring_difference, rings. intros Ha Hb.
  destruct (exterior b) as [|cb restb] eqn:Hextb; [exact Ha|]. simpl.
  destruct (exterior a) as [|ca resta] eqn:Hexta; [constructor|].
  inversion Ha as [|? ? Ha1 Ha2]; subst. inversion Hb as [|? ? Hb1 Hb2]; subst.
  repeat constructor; assumption.
Qed.

(** C8. Every polygon ring the system produces is closed, its first and its
    last coordinate pair being the same pair: the ring of a geodesic circle,
    the rings of an annulus (shapely's difference of two such circles, which
    is taken to keep rings closed), the ring of a rectangle, and the bounds
    polygon built when a raster is loaded.  A circle of [CIRCLE_PTS] points
    is produced for every centre and radius. *)
Theorem rings_closed {E : Externals} :
  (forall a b, Forall closed_ring (rings a) -> Forall closed_ring (rings b) ->
               Forall closed_ring (rings (difference a b))) ->
  (forall lon lat radius_m n p,
      geodesic_circle lon lat radius_m n = Ok p -> Forall closed_ring (rings p)) /\
  (forall lon lat radius_m, exists p, geodesic_circle lon lat radius_m CIRCLE_PTS = Ok p) /\
  (forall lon lat inner_m outer_m n p,
      geodesic_annulus lon lat inner_m outer_m n = Ok p -> Forall closed_ring (rings p)) /\
  (forall lon lat half_w_m half_h_m,
      Forall closed_ring (rings (rect_from_center lon lat half_w_m half_h_m))) /\
  (forall path info, read_info path = Ok info -> closed_ring (ri_bounds_polygon info)).
Proof.
  intros Hdiff. repeat split.
  - apply geodesic_circle_closed.
  - intros lon lat radius_m.
    destruct (geodesic_circle_Ok lon lat radius_m CIRCLE_PTS) as (c & rest & _ & H);
      [reflexivity|]. eauto.
  - intros lon lat inner_m outer_m n p H. unfold geodesic_annulus in H.
    apply bind_Ok in H as (outer & Houter & H).
    apply bind_Ok in H as (inner & Hinner & [= <-]).
    apply Hdiff; eapply geodesic_circle_closed; eassumption.
  - apply rect_from_center_closed.
  - apply read_info_closed.
Qed.

Lemma rings_closed_witness :
  (forall a b, Forall closed_ring (rings a) -> Forall closed_ring (rings b) ->
               Forall closed_ring (rings (Demo.ring_difference a b))) /\
  (exists p, geodesic_annulus (E := Demo.mask_world) 10.5 0.5 5000 10000 4 = Ok p /\
             Forall closed_ring (rings p)) /\
  (exists info, read_info (E := Demo.mask_world) "dem.tif" = Ok info /\
                closed_ring (ri_bounds_polygon info)).
Proof.
  pose proof (rings_closed (E := Demo.mask_world) ring_difference_closed)
    as (_ & _ & Hann & _ & Hinfo).
  split; [exact ring_difference_closed|]. split.
  - destruct (geodesic_annulus (E := Demo.mask_world) 10.5 0.5 5000 10000 4) as [p|e] eqn:Hp;
      [|vm_compute in Hp; discriminate].
    exists p. split; [reflexivity|]. now apply Hann in Hp.
  - destruct (read_info (E := Demo.mask_world) "dem.tif") as [info|e] eqn:Hi;
      [|vm_compute in Hi; discriminate].
    exists info. split; [reflexivity|]. now apply Hinfo in Hi.
Defined.


(** The radii [-5], [0] and [-0.0] at the default number of points, and a
    negative radius at two points. *)
Example geodesic_circle_nonpositive_radius_example :
  (exists p, geodesic_circle (E := Demo.mask_world) 10.5 0.5 (-5)%float CIRCLE_PTS = Ok p) /\
  (exists p, geodesic_circle (E := Demo.mask_world) 10.5 0.5 0%float CIRCLE_PTS = Ok p) /\
  (exists p, geodesic_circle (E := Demo.mask_world) 10.5 0.5 (-0)%float CIRCLE_PTS = Ok p) /\
  geodesic_circle (E := Demo.mask_world) 10.5 0.5 (-5)%float 2
  = Raise (ValueError "A linearring requires at least 4 coordinates.").
Proof.
  split; [|split; [|split]]; [eexists; vm_compute; reflexivity ..|].
  vm_compute. reflexivity.
Qed.

(* ================================================================== *)
(** * Query runners *)

Section Queries.

Context {E : Externals}.

Import PyFloat FloatFacts SortFacts.

Local Open Scope float_scope.

Lemma run_circle_query_Ok tif_path lon lat radii_km stat_names band results :
  run_circle_query tif_path lon lat radii_km stat_names band = Ok results <->
  Forall2 (circle_result tif_path lon lat stat_names band) (sorted radii_km) results.
Proof.
  unfold run_circle_query. rewrite for_each_Ok.
  split; intros H; (eapply Forall2_impl; [exact H|]); clear H; intros r res H.
  - apply bind_Ok in H as (circ & Hc & H). apply bind_Ok in H as (vals & Hv & [= <-]).
    now exists circ.
  - destruct H as (circ & Hc & Hv & Hg & Hl). rewrite Hc. simpl. rewrite Hv. simpl.
    destruct res as [lbl geo st]. simpl in *. now subst.
Qed.

Lemma run_circle_query_total tif_path lon lat radii_km stat_names band :
  (forall r circ, In r radii_km ->
     geodesic_circle lon lat (r * 1000) CIRCLE_PTS = Ok circ ->
     exists vals, compute_stats tif_path circ stat_names band = Ok vals) ->
  exists results, run_circle_query tif_path lon lat radii_km stat_names band = Ok results.
Proof.
  intros H. apply for_each_total. intros r Hr. apply (proj1 (sorted_In r radii_km)) in Hr.
  destruct (geodesic_circle_Ok lon lat (r * 1000) CIRCLE_PTS) as (c & rest & _ & Hc);
    [reflexivity|].
  destruct (H r _ Hr Hc) as (vals & Hv). rewrite Hc. simpl. rewrite Hv. simpl. eauto.
Qed.

End Queries.

(** C3, as the code has it.  For every list of radii that are numbers, the
    circle query returns one result per radius, labelled "<radius> km", in
    ascending order of the radii, and it returns whenever the statistics of
    each circle can be computed.  Its output is the same for every
    permutation of a list in which radii that compare equal are one value;
    radii that compare equal without being one value (0.0 and -0.0) keep
    the order of the input: for every value, the radii that compare equal
    to it are processed in the order in which the input lists them. *)
Theorem circle_query_sorted {E : Externals} tif_path lon lat radii_km stat_names band :
  Forall PyFloat.is_num radii_km ->
  (forall results,
      run_circle_query tif_path lon lat radii_km stat_names band = Ok results ->
      exists radii,
        Permutation radii radii_km /\
        StronglySorted PyFloat.le radii /\
        (forall v, List.filter (PyFloat.eq v) radii = List.filter (PyFloat.eq v) radii_km) /\
        Forall2 (circle_result tif_path lon lat stat_names band) radii results) /\
  ((forall r circ, In r radii_km ->
       geodesic_circle lon lat (r * 1000)%float CIRCLE_PTS = Ok circ ->
       exists vals, compute_stats tif_path circ stat_names band = Ok vals) ->
   exists results,
     run_circle_query tif_path lon lat radii_km stat_names band = Ok results) /\
  (forall radii_km',
      PyFloat.separated radii_km -> Permutation radii_km radii_km' ->
      run_circle_query tif_path lon lat radii_km' stat_names band
      = run_circle_query tif_path lon lat radii_km stat_names band).
Proof.
  intros Hnum. repeat split.
  - intros results H. exists (PyFloat.sorted radii_km). repeat split.
    + apply SortFacts.sorted_perm.
    + now apply SortFacts.sorted_sorted.
    + intros v. apply SortFacts.sorted_stable.
    + now apply run_circle_query_Ok.
  - apply run_circle_query_total.
  - intros radii_km' Hsep Hp. unfold run_circle_query.
    now rewrite (SortFacts.sorted_perm_invariant radii_km radii_km' Hnum Hsep Hp).
Qed.

Lemma circle_query_sorted_witness :
  Forall PyFloat.is_num [5; 1]%float /\
  exists results,
    run_circle_query (E := Demo.mask_world) "dem.tif" 10.5 0.5 [5; 1]%float ["sum"] 1
    = Ok results /\
    exists radii,
      Permutation radii [5; 1]%float /\
      StronglySorted PyFloat.le radii /\
      (forall v, List.filter (PyFloat.eq v) radii = List.filter (PyFloat.eq v) [5; 1]%float) /\
      Forall2 (circle_result (E := Demo.mask_world) "dem.tif" 10.5 0.5 ["sum"] 1)
              radii results.
Proof.
  assert (Hnum : Forall PyFloat.is_num [5; 1]%float) by (repeat constructor).
  split; [exact Hnum|].
  destruct (circle_query_sorted (E := Demo.mask_world)
              "dem.tif" 10.5%float 0.5%float [5; 1]%float ["sum"] 1%Z Hnum)
    as (Hsorted & _ & _).
  destruct (run_circle_query (E := Demo.mask_world) "dem.tif" 10.5 0.5 [5; 1]%float ["sum"] 1)
    as [results|e] eqn:Hrun; [|vm_compute in Hrun; discriminate].
  exists results. split; [reflexivity|]. now apply Hsorted.
Defined.

(** C3, as the claim states it, fails: the radii [0.0; -0.0] and their
    permutation [-0.0; 0.0] give results in two different orders. *)
Lemma circle_query_not_permutation_invariant :
  Permutation [0; -0]%float [-0; 0]%float /\
  Demo.labels (run_circle_query (E := Demo.mask_world)
                 "dem.tif" 10.5 0.5 [0; -0]%float ["sum"] 1)
    = ["0.0 km"; "-0.0 km"] /\
  Demo.labels (run_circle_query (E := Demo.mask_world)
                 "dem.tif" 10.5 0.5 [-0; 0]%float ["sum"] 1)
    = ["-0.0 km"; "0.0 km"] /\
  run_circle_query (E := Demo.mask_world) "dem.tif" 10.5 0.5 [0; -0]%float ["sum"] 1
  <> run_circle_query (E := Demo.mask_world) "dem.tif" 10.5 0.5 [-0; 0]%float ["sum"] 1.
Proof.
  split; [apply perm_swap|].
  split; [vm_compute; reflexivity|].
  split; [vm_compute; reflexivity|].
  intros H. apply (f_equal Demo.labels) in H. vm_compute in H. discriminate.
Qed.

Section BandQuery.

Context {E : Externals}.

Import PyFloat FloatFacts SortFacts.

Local Open Scope float_scope.

Lemma band_result_Ok tif_path lon lat edges stat_names band i res :
  band_result tif_path lon lat edges stat_names band i = Ok res <->
  exists inner outer,
    nth_error edges i = Some inner /\ nth_error edges (i + 1) = Some outer /\
    annulus_result tif_path lon lat stat_names band inner outer res.
Proof.
  unfold band_result, getitem. split.
  - intros H. apply bind_Ok in H as (inner & Hi & H).
    apply bind_Ok in H as (outer & Ho & H).
    apply bind_Ok in H as (ring & Hr & H).
    apply bind_Ok in H as (vals & Hv & [= <-]).
    exists inner, outer.
    destruct (nth_error edges i); [|discriminate].
    destruct (nth_error edges (i + 1)); [|discriminate].
    injection Hi as ->. injection Ho as ->.
    repeat split. now exists ring.
  - intros (inner & outer & Hi & Ho & ring & Hr & Hv & Hg & Hl).
    rewrite Hi, Ho. cbn [bind]. rewrite Hr. cbn [bind]. rewrite Hv. cbn [bind].
    destruct res as [lbl geo st]. simpl in *. now subst.
Qed.

Lemma nth_error_seq_0 n i : (i < n)%nat -> nth_error (seq 0 n) i = Some i.
Proof.
  intros H. rewrite nth_error_nth' with (d := 0%nat); [|now rewrite length_seq].
  now rewrite seq_nth.
Qed.

Lemma run_band_query_Ok tif_path lon lat edges_km stat_names band results :
  run_band_query tif_path lon lat edges_km stat_names band = Ok results ->
  length results = (length (sorted (set edges_km)) - 1)%nat /\
  forall i, (i < length (sorted (set edges_km)) - 1)%nat ->
    exists inner outer res,
      nth_error (sorted (set edges_km)) i = Some inner /\
      nth_error (sorted (set edges_km)) (i + 1) = Some outer /\
      nth_error results i = Some res /\
      annulus_result tif_path lon lat stat_names band inner outer res.
Proof.
  unfold run_band_query. intros H. split.
  - apply for_each_length in H. now rewrite length_seq in H.
  - intros i Hi.
    destruct (for_each_nth _ _ _ i i H (nth_error_seq_0 _ _ Hi)) as (res & Hres & Hb).
    apply band_result_Ok in Hb as (inner & outer & ? & ? & ?).
    now exists inner, outer, res.
Qed.

Lemma run_band_query_total tif_path lon lat edges_km stat_names band :
  (forall ring, exists vals, compute_stats tif_path ring stat_names band = Ok vals) ->
  exists results, run_band_query tif_path lon lat edges_km stat_names band = Ok results.
Proof.
  intros H. apply for_each_total. intros i Hi. apply in_seq in Hi.
  set (edges := sorted (set edges_km)) in *.
  destruct (nth_error edges i) as [inner|] eqn:Hinner;
    [|apply nth_error_None in Hinner; lia].
  destruct (nth_error edges (i + 1)) as [outer|] eqn:Houter;
    [|apply nth_error_None in Houter; lia].
  destruct (geodesic_circle_Ok lon lat (outer * 1000) CIRCLE_PTS) as (c1 & r1 & _ & H1);
    [reflexivity|].
  destruct (geodesic_circle_Ok lon lat (inner * 1000) CIRCLE_PTS) as (c2 & r2 & _ & H2);
    [reflexivity|].
  unfold band_result, getitem, geodesic_annulus.
  rewrite Hinner, Houter. cbn [bind]. rewrite H1. cbn [bind]. rewrite H2. cbn [bind].
  destruct (H (difference (Polygon_of (c1 :: r1 ++ [c1])) (Polygon_of (c2 :: r2 ++ [c2]))))
    as (vals & Hv).
  rewrite Hv. cbn [bind]. eauto.
Qed.

(** With fewer than two distinct edges the loop of the band query has no
    turn: the query returns the empty list and raises nothing. *)
Lemma run_band_query_few_distinct tif_path lon lat edges_km stat_names band :
  (count_distinct edges_km < 2)%nat ->
  run_band_query tif_path lon lat edges_km stat_names band = Ok [].
Proof.
  intros H. unfold run_band_query.
  rewrite sorted_length, set_length.
  destruct (count_distinct edges_km) as [|[|k]]; [reflexivity | reflexivity | lia].
Qed.

End BandQuery.

(** C2. For every list of edges that are numbers, [N >= 2] of them distinct,
    the band query works on the distinct edges in strictly ascending order
    and returns [N - 1] results, the [i]-th one for the annulus between edge
    [i] and edge [i + 1], labelled "<inner>–<outer> km" with an en-dash; it
    returns whenever the statistics of a polygon can be computed. *)
Theorem band_query_bands {E : Externals} tif_path lon lat edges_km stat_names band :
  Forall PyFloat.is_num edges_km ->
  (2 <= PyFloat.count_distinct edges_km)%nat ->
  exists edges,
    length edges = PyFloat.count_distinct edges_km /\
    StronglySorted (fun x y => PyFloat.lt x y = true) edges /\
    (forall x, In x edges -> In x edges_km) /\
    (forall x, In x edges_km -> exists y, In y edges /\ PyFloat.eq x y = true) /\
    (forall results,
        run_band_query tif_path lon lat edges_km stat_names band = Ok results ->
        length results = (PyFloat.count_distinct edges_km - 1)%nat /\
        forall i, (i < PyFloat.count_distinct edges_km - 1)%nat ->
          exists inner outer res,
            nth_error edges i = Some inner /\ nth_error edges (i + 1) = Some outer /\
            nth_error results i = Some res /\
            annulus_result tif_path lon lat stat_names band inner outer res) /\
    ((forall ring, exists vals, compute_stats tif_path ring stat_names band = Ok vals) ->
     exists results,
       run_band_query tif_path lon lat edges_km stat_names band = Ok results).
Proof.
  intros Hnum _. exists (PyFloat.sorted (PyFloat.set edges_km)).
  assert (Hlen : length (PyFloat.sorted (PyFloat.set edges_km))
                 = PyFloat.count_distinct edges_km).
  { now rewrite SortFacts.sorted_length, SortFacts.set_length. }
  split; [exact Hlen|]. split; [now apply SortFacts.sorted_set_strict|].
  split; [|split; [|split]].
  - intros x Hx. now apply SortFacts.set_In, SortFacts.sorted_In.
  - intros x Hx.
    destruct (SortFacts.set_covers edges_km x Hx) as [Hin|(y & Hy & Hxy)].
    + exists x. split; [now apply SortFacts.sorted_In|].
      apply FloatFacts.eq_refl. rewrite List.Forall_forall in Hnum. now apply Hnum.
    + exists y. split; [now apply SortFacts.sorted_In | exact Hxy].
  - intros results H. apply run_band_query_Ok in H.
    now rewrite Hlen in H.
  - apply run_band_query_total.
Qed.

Lemma band_query_bands_witness :
  (Forall PyFloat.is_num [20; 5; 10; 5]%float /\
   (2 <= PyFloat.count_distinct [20; 5; 10; 5]%float)%nat) /\
  forall results,
    run_band_query (E := Demo.mask_world) "dem.tif" 10.5 0.5 [20; 5; 10; 5]%float ["sum"] 1
    = Ok results ->
    length results = (PyFloat.count_distinct [20; 5; 10; 5]%float - 1)%nat.
Proof.
  assert (Hnum : Forall PyFloat.is_num [20; 5; 10; 5]%float) by (repeat constructor).
  assert (Hcount : (2 <= PyFloat.count_distinct [20; 5; 10; 5]%float)%nat)
    by (vm_compute; lia).
  split; [now split|].
  destruct (band_query_bands (E := Demo.mask_world)
              "dem.tif" 10.5%float 0.5%float [20; 5; 10; 5]%float ["sum"] 1%Z Hnum Hcount)
    as (edges & _ & _ & _ & _ & Hres & _).
  intros results H. now apply Hres in H as [H _].
Defined.

(** C1, where the code departs from it.  A band request whose two edges are
    one value passes the handler's test on the number of edges, and the
    engine, left with a single distinct edge, returns the empty list of
    results: the request is answered with status 200 and no error. *)
Theorem band_query_duplicate_edges_accepted :
  (forall (E : Externals) tif_path lon lat stat_names band,
      run_band_query tif_path lon lat [5; 5]%float stat_names band = Ok []) /\
  (exists c, band_params (E := Demo.mask_world) Demo.store Demo.duplicate_edges_request
             = Ok c) /\
  query_band (E := Demo.mask_world) Demo.store Demo.duplicate_edges_request = Results [].
Proof.
  split; [|split].
  - intros E tif_path lon lat stat_names band.
    apply run_band_query_few_distinct. vm_compute. lia.
  - eexists. vm_compute. reflexivity.
  - vm_compute. reflexivity.
Qed.

Section CompareQuery.

Context {E : Externals}.

Local Open Scope float_scope.

Lemma run_compare_query_Ok tif_path points radius_km stat_names band results :
  run_compare_query tif_path points radius_km stat_names band = Ok results <->
  Forall2 (compare_result tif_path radius_km stat_names band) points results.
Proof.
  unfold run_compare_query. rewrite for_each_Ok.
  split; intros H; (eapply Forall2_impl; [exact H|]); clear H; intros pt res H.
  - apply bind_Ok in H as (circ & Hc & H). apply bind_Ok in H as (vals & Hv & [= <-]).
    now exists circ, vals.
  - destruct H as (circ & vals & Hc & Hv & Hg & Hs & Hl).
    rewrite Hc. cbn [bind]. rewrite Hv. cbn [bind].
    destruct res as [lbl geo st]. simpl in *. now subst.
Qed.

Lemma run_compare_query_total tif_path points radius_km stat_names band :
  (forall circ, exists vals, compute_stats tif_path circ stat_names band = Ok vals) ->
  exists results,
    run_compare_query tif_path points radius_km stat_names band = Ok results.
Proof.
  intros H. apply for_each_total. intros pt _.
  destruct (geodesic_circle_Ok (pt_lon pt) (pt_lat pt) (radius_km * 1000) CIRCLE_PTS)
    as (c & rest & _ & Hc); [reflexivity|].
  rewrite Hc. cbn [bind]. destruct (H (Polygon_of (c :: rest ++ [c]))) as (vals & Hv).
  rewrite Hv. cbn [bind]. eauto.
Qed.

End CompareQuery.

(** C4. For every list of named points, the compare query returns one result
    per point, in the order of the list: the result of a point is labelled
    with the point's name, its geometry is the circle around the point, and
    its statistics are those of the circle with the point's latitude and
    longitude added under the keys "_lat" and "_lon".  The query returns
    whenever the statistics of a polygon can be computed. *)
Theorem compare_query_order_and_metadata {E : Externals}
    tif_path points radius_km stat_names band :
  (forall results,
      run_compare_query tif_path points radius_km stat_names band = Ok results ->
      length results = length points /\
      Forall2 (fun pt res =>
                 label res = pt_name pt /\
                 stats res !! "_lat" = Some (pt_lat pt) /\
                 stats res !! "_lon" = Some (pt_lon pt) /\
                 compare_result tif_path radius_km stat_names band pt res)
              points results) /\
  ((forall circ, exists vals, compute_stats tif_path circ stat_names band = Ok vals) ->
   exists results,
     run_compare_query tif_path points radius_km stat_names band = Ok results).
Proof.
  split; [|apply run_compare_query_total].
  intros results H. apply run_compare_query_Ok in H. split.
  - symmetry. now apply Forall2_length in H.
  - eapply Forall2_impl; [exact H|]. intros pt res Hres.
    pose proof Hres as (circ & vals & _ & _ & _ & Hs & Hl).
    rewrite Hs. repeat split.
    + exact Hl.
    + rewrite lookup_insert_ne by discriminate. apply lookup_insert_eq.
    + apply lookup_insert_eq.
    + exact Hres.
Qed.

(* ================================================================== *)
(** * Zonal statistics *)

Section Stats.

Context {E : Externals}.

Lemma existsb_eqb_In s names : existsb (String.eqb s) names = true <-> In s names.
Proof.
  rewrite existsb_exists. split.
  - intros (t & Ht & Hst). apply String.eqb_eq in Hst. now subst.
  - intros H. exists s. split; [exact H | apply String.eqb_refl].
Qed.

Lemma fold_insert_lookup (v : string -> float) names : forall (out : gmap string float) s,
  fold_left (fun out s => <[s := v s]> out) names out !! s
  = if existsb (String.eqb s) names then Some (v s) else out !! s.
Proof.
  induction names as [|n ns IH]; intros out s; simpl; [reflexivity|].
  rewrite IH. destruct (existsb (String.eqb s) ns); [now rewrite orb_true_r|].
  rewrite orb_false_r. destruct (String.eqb_spec s n) as [->|Hne].
  - apply lookup_insert_eq.
  - apply lookup_insert_ne. congruence.
Qed.

Lemma aggregate_lookup arr names s :
  aggregate arr names !! s
  = if existsb (String.eqb s) names then Some (stat_value s arr) else None.
Proof. unfold aggregate. now rewrite fold_insert_lookup, lookup_empty. Qed.

Lemma stat_value_unrecognized s arr : recognized s = false -> stat_value s arr = nan.
Proof.
  unfold recognized, VALID_STATS, stat_value. simpl. intros H.
  repeat match goal with
  | H : _ || _ = false |- _ =>
      let H0 := fresh in apply orb_false_iff in H as [H0 H]; rewrite H0
  end.
  reflexivity.
Qed.


Lemma existsb_filter_recognized s names :
  recognized s = true ->
  existsb (String.eqb s) (List.filter recognized names) = existsb (String.eqb s) names.
Proof.
  intros Hs. induction names as [|n ns IH]; simpl; [reflexivity|].
  destruct (recognized n) eqn:Hn; simpl; rewrite IH; [reflexivity|].
  destruct (String.eqb_spec s n) as [->|_]; [congruence | reflexivity].
Qed.

(** What the fallback returns, step by step. *)
Lemma compute_stats_fallback_Ok tif_path geom stat_names band out :
  compute_stats_fallback tif_path geom stat_names band = Ok out <->
  exists ds arrs arr,
    rasterio_open tif_path = Ok ds /\
    rio_mask ds (mapping (native_geometry ds geom)) band = Ok arrs /\
    getitem arrs 0 = Ok arr /\
    out = aggregate (mask_nodata (ds_nodata ds) arr) stat_names.
Proof.
  unfold compute_stats_fallback. split.
  - intros H. apply bind_Ok in H as (ds & Hds & H).
    apply bind_Ok in H as (arrs & Harrs & H).
    apply bind_Ok in H as (arr & Harr & [= <-]).
    now exists ds, arrs, arr.
  - intros (ds & arrs & arr & Hds & Harrs & Harr & ->).
    rewrite Hds. cbn [bind]. rewrite Harrs. cbn [bind]. now rewrite Harr.
Qed.




(** The polygon the fallback rasterizes for a raster whose coordinate
    system is not geographic: the exterior ring alone. *)
Lemma native_geometry_projected ds crs geom :
  ds_crs ds = Some crs -> is_geographic crs = false ->
  native_geometry ds geom
  = Polygon_of (map (Transformer_from_crs WGS84 (crs_name crs)) (exterior geom)).
Proof. intros Hcrs Hgeo. unfold native_geometry. now rewrite Hcrs, Hgeo. Qed.

End Stats.

(** C5, where the code departs from it.  When the raster's coordinate system
    is not geographic, the polygon the fallback hands to the mask step has
    the reprojected exterior ring of the input and no interior ring: for an
    input with a hole it is not the reprojection of the whole polygon, and
    it is the polygon the mask step receives. *)
Theorem fallback_reprojects_exterior_only {E : Externals} ds crs geom :
  ds_crs ds = Some crs -> is_geographic crs = false ->
  exterior (native_geometry ds geom)
    = map (Transformer_from_crs WGS84 (crs_name crs)) (exterior geom) /\
  interiors (native_geometry ds geom) = [] /\
  (interiors geom <> [] ->
   native_geometry ds geom
   <> reproject (Transformer_from_crs WGS84 (crs_name crs)) geom) /\
  (forall tif_path stat_names band out,
      HAS_EXACT = false -> rasterio_open tif_path = Ok ds ->
      compute_stats tif_path geom stat_names band = Ok out ->
      exists arrs,
        rio_mask ds (mapping (native_geometry ds geom)) band = Ok arrs).
Proof.
  intros Hcrs Hgeo. rewrite (native_geometry_projected ds crs geom Hcrs Hgeo).
  split; [reflexivity|]. split; [reflexivity|]. split.
  - intros Hholes Heq. apply (f_equal interiors) in Heq. simpl in Heq.
    destruct (interiors geom); [now apply Hholes | discriminate].
  - intros tif_path stat_names band out Hex Hds H.
    unfold compute_stats in H. rewrite Hex in H.
    apply compute_stats_fallback_Ok in H as (ds' & arrs & arr & Hds' & Harrs & _).
    rewrite Hds in Hds'. injection Hds' as <-.
    rewrite (native_geometry_projected ds crs geom Hcrs Hgeo) in Harrs. eauto.
Qed.

Lemma fallback_reprojects_exterior_only_witness :
  let annulus := Demo.ring_difference (box 10 0 11 1) (box 10.25 0.25 10.75 0.75) in
  (ds_crs (Demo.dem Demo.utm33) = Some Demo.utm33 /\
   is_geographic Demo.utm33 = false) /\
  interiors annulus <> [] /\
  interiors (native_geometry (E := Demo.mask_world) (Demo.dem Demo.utm33) annulus) = [] /\
  native_geometry (E := Demo.mask_world) (Demo.dem Demo.utm33) annulus
  <> reproject (Demo.scale WGS84 "EPSG:32633") annulus.
Proof.
  intros annulus.
  destruct (fallback_reprojects_exterior_only (E := Demo.mask_world)
              (Demo.dem Demo.utm33) Demo.utm33 annulus eq_refl eq_refl)
    as (_ & Hint & Hne & _).
  assert (Hholes : interiors annulus <> []) by discriminate.
  split; [now split|]. split; [exact Hholes|]. split; [exact Hint|].
  now apply Hne.
Defined.

(** In the mask-and-aggregate fallback (exactextract not imported), a
    requested name outside the recognized set has the value NaN in the
    returned mapping, and the request returns whenever the request for its
    recognized names returns, with the same value for each of them. *)
Lemma unrecognized_stat_fallback {E : Externals} tif_path geom stat_names band :
  HAS_EXACT = false ->
  (forall out s,
      compute_stats tif_path geom stat_names band = Ok out ->
      In s stat_names -> recognized s = false ->
      out !! s = Some nan) /\
  (forall kept,
      compute_stats tif_path geom (List.filter recognized stat_names) band = Ok kept ->
      exists out,
        compute_stats tif_path geom stat_names band = Ok out /\
        forall s, recognized s = true -> out !! s = kept !! s).
Proof.
  intros Hex. unfold compute_stats. rewrite Hex. split.
  - intros out s H Hin Hs.
    apply compute_stats_fallback_Ok in H as (ds & arrs & arr & _ & _ & _ & ->).
    rewrite aggregate_lookup. apply existsb_eqb_In in Hin. rewrite Hin.
    now rewrite stat_value_unrecognized.
  - intros kept H.
    apply compute_stats_fallback_Ok in H as (ds & arrs & arr & Hds & Harrs & Harr & ->).
    exists (aggregate (mask_nodata (ds_nodata ds) arr) stat_names). split.
    + apply compute_stats_fallback_Ok. now exists ds, arrs, arr.
    + intros s Hs. rewrite !aggregate_lookup. now rewrite existsb_filter_recognized.
Qed.

Example unrecognized_stat_fallback_example :
  HAS_EXACT (Externals := Demo.mask_world) = false /\
  exists out,
    compute_stats (E := Demo.mask_world) "dem.tif" (box 10 0 11 1) ["sum"; "range"] 1
    = Ok out /\
    out !! "range" = Some nan /\
    out !! "sum" = Some 40%float.
Proof.
  split; [reflexivity|].
  destruct (unrecognized_stat_fallback (E := Demo.mask_world)
              "dem.tif" (box 10 0 11 1) ["sum"; "range"] 1%Z eq_refl) as (Hnan & Hkeep).
  destruct (Hkeep (<["sum" := 40%float]> ∅)) as (out & Hout & Hsame);
    [vm_compute; reflexivity|].
  exists out. split; [exact Hout|]. split.
  - apply (Hnan out "range" Hout); [now right; left | reflexivity].
  - rewrite (Hsame "sum" eq_refl). apply lookup_insert_eq.
Qed.







(* ================================================================== *)
(** * Parameter parsing of the handlers *)

Section Parsing.

Context {E : Externals}.

Lemma in_VALID_STATS_Some s t : in_VALID_STATS s = Some t -> s = JStr t /\ In t VALID_STATS.
Proof.
  destruct s as [| | | |n| |]; try discriminate. unfold in_VALID_STATS.
  destruct (existsb (String.eqb n) VALID_STATS) eqn:H; [|discriminate].
  intros [= <-]. split; [reflexivity|]. now apply existsb_eqb_In.
Qed.

Lemma keep_valid_valid items : Forall (fun s => In s VALID_STATS) (keep_valid items).
Proof.
  induction items as [|s rest IH]; simpl; [constructor|].
  destruct (in_VALID_STATS s) as [t|] eqn:Hs; [|exact IH].
  constructor; [now apply in_VALID_STATS_Some in Hs | exact IH].
Qed.

(** On a list of strings, [keep_valid] is the filter on the recognized
    names: the others are dropped, the order and the repetitions kept. *)
Lemma in_VALID_STATS_JStr n :
  in_VALID_STATS (JStr n) = if recognized n then Some n else None.
Proof. reflexivity. Qed.

Lemma keep_valid_strings names :
  keep_valid (map JStr names) = List.filter recognized names.
Proof.
  induction names as [|n ns IH]; [reflexivity|].
  cbn [map keep_valid List.filter]. rewrite in_VALID_STATS_JStr.
  destruct (recognized n); now rewrite IH.
Qed.

Lemma default_valid kept :
  valid_stats (match keep_valid kept with [] => ["sum"] | _ => keep_valid kept end).
Proof.
  pose proof (keep_valid_valid kept) as H.
  destruct (keep_valid kept) as [|s rest]; split; try discriminate; trivial.
  repeat constructor.
Qed.

(** What [_parse_query_params] read when it returns. *)
Lemma parse_query_params_Ok store data info stat_names band :
  _parse_query_params store data = Ok (info, stat_names, band) ->
  exists fields requested items,
    data = JObj fields /\
    requested = match dict_lookup fields "stats" with
                | Some v => v
                | None => JArr [JStr "sum"]
                end /\
    py_iter requested = Ok items /\
    stat_names = match keep_valid items with [] => ["sum"] | _ => keep_valid items end.
Proof.
  unfold _parse_query_params. intros H.
  destruct data; try discriminate. simpl in H.
  destruct (negb (truthy _)); [discriminate|].
  apply bind_Ok in H as (found & _ & H). destruct found as [info'|]; [|discriminate].
  apply bind_Ok in H as (items & Hitems & H).
  apply bind_Ok in H as (b & _ & [= _ <- _]).
  now exists fields, (match dict_lookup fields "stats" with
                      | Some v => v
                      | None => JArr [JStr "sum"]
                      end), items.
Qed.

Lemma parse_query_params_valid store data info stat_names band :
  _parse_query_params store data = Ok (info, stat_names, band) -> valid_stats stat_names.
Proof.
  intros H. apply parse_query_params_Ok in H as (fields & req & items & _ & _ & _ & ->).
  apply default_valid.
Qed.

Lemma parse_query_params_total store fields rid info :
  dict_lookup fields "raster_id" = Some (JStr rid) -> rid <> "" ->
  store !! rid = Some info ->
  (dict_lookup fields "stats" = None \/
   exists items, dict_lookup fields "stats" = Some (JArr items)) ->
  (dict_lookup fields "band" = None \/
   exists z, dict_lookup fields "band" = Some (JInt z)) ->
  exists stat_names band,
    _parse_query_params store (JObj fields) = Ok (info, stat_names, band).
Proof.
  intros Hrid Hne Hinfo Hstats Hband. unfold _parse_query_params, py_get.
  rewrite Hrid. cbn [bind truthy].
  destruct (String.eqb_spec rid "") as [->|_]; [congruence|]. cbn [negb store_get bind].
  unfold get. rewrite Hinfo.
  destruct Hstats as [->|(items & ->)], Hband as [->|(z & ->)]; simpl; eauto.
Qed.

End Parsing.

(** C10. Whenever the parameter parsing of a request returns, the statistic
    names it returns are the requested names that belong to [VALID_STATS],
    in the order of the request, or ["sum"] when the request has no "stats"
    field or none of its names is recognized: the list is never empty and
    holds recognized names only, and so does the list each of the four
    handlers passes to the engine.  The parsing returns for every request
    that names a loaded raster, with or without a list of names and an
    integer band. *)
Theorem parse_query_params_stats {E : Externals} store data :
  (forall info stat_names band,
      _parse_query_params store data = Ok (info, stat_names, band) ->
      valid_stats stat_names /\
      exists fields,
        data = JObj fields /\
        (dict_lookup fields "stats" = None -> stat_names = ["sum"]) /\
        (forall names,
            dict_lookup fields "stats" = Some (JArr (map JStr names)) ->
            stat_names = match List.filter recognized names with
                         | [] => ["sum"]
                         | kept => kept
                         end)) /\
  (forall c, circle_params store data = Ok c -> valid_stats (call_stats c)) /\
  (forall c, band_params store data = Ok c -> valid_stats (call_stats c)) /\
  (forall c, rect_params store data = Ok c -> valid_stats (call_stats c)) /\
  (forall c, compare_params store data = Ok c -> valid_stats (call_stats c)) /\
  (forall fields rid info,
      data = JObj fields ->
      dict_lookup fields "raster_id" = Some (JStr rid) -> rid <> "" ->
      store !! rid = Some info ->
      (dict_lookup fields "stats" = None \/
       exists items, dict_lookup fields "stats" = Some (JArr items)) ->
      (dict_lookup fields "band" = None \/
       exists z, dict_lookup fields "band" = Some (JInt z)) ->
      exists stat_names band,
        _parse_query_params store data = Ok (info, stat_names, band)).
Proof.
  split; [|split; [|split; [|split; [|split]]]].
  - intros info stat_names band H. split; [now apply parse_query_params_valid in H|].
    apply parse_query_params_Ok in H as (fields & req & items & -> & -> & Hitems & ->).
    exists fields. split; [reflexivity|]. split.
    + intros Hnone. rewrite Hnone in Hitems. now injection Hitems as <-.
    + intros names Hsome. rewrite Hsome in Hitems. injection Hitems as <-.
      rewrite keep_valid_strings. now destruct (List.filter recognized names).
  - intros c H. unfold circle_params in H.
    apply bind_Ok in H as ([[info names] band] & Hp & H).
    apply bind_Ok in H as (lon & _ & H). apply bind_Ok in H as (lat & _ & H).
    apply bind_Ok in H as (radii & _ & H). destruct radii; [discriminate|].
    injection H as <-. simpl. now apply parse_query_params_valid in Hp.
  - intros c H. unfold band_params in H.
    apply bind_Ok in H as ([[info names] band] & Hp & H).
    apply bind_Ok in H as (lon & _ & H). apply bind_Ok in H as (lat & _ & H).
    apply bind_Ok in H as (edges & _ & H).
    destruct (length edges <? 2)%nat; [discriminate|].
    injection H as <-. simpl. now apply parse_query_params_valid in Hp.
  - intros c H. unfold rect_params in H.
    apply bind_Ok in H as ([[info names] band] & Hp & H).
    apply bind_Ok in H as (lon & _ & H). apply bind_Ok in H as (lat & _ & H).
    apply bind_Ok in H as (half_w & _ & H). apply bind_Ok in H as (half_h & _ & H).
    injection H as <-. simpl. now apply parse_query_params_valid in Hp.
  - intros c H. unfold compare_params in H.
    apply bind_Ok in H as ([[info names] band] & Hp & H).
    apply bind_Ok in H as (radius & _ & H). apply bind_Ok in H as (v & _ & H).
    apply bind_Ok in H as (pts & _ & H). apply bind_Ok in H as (points & _ & H).
    injection H as <-. simpl. now apply parse_query_params_valid in Hp.
  - intros fields rid info -> Hrid Hne Hinfo Hstats Hband.
    now apply parse_query_params_total with (rid := rid).
Qed.

(** A request that names one unknown statistic among two known ones, and a
    request that names only unknown ones. *)
Example parse_query_params_drops_unknown :
  (exists info,
      _parse_query_params (E := Demo.mask_world) Demo.store
        (JObj [("raster_id", JStr "r1");
               ("stats", JArr [JStr "mean"; JStr "range"; JStr "sum"])])
      = Ok (info, ["mean"; "sum"], 1%Z)) /\
  (exists info,
      _parse_query_params (E := Demo.mask_world) Demo.store
        (JObj [("raster_id", JStr "r1"); ("stats", JArr [JStr "range"; JInt 3])])
      = Ok (info, ["sum"], 1%Z)).
Proof. split; eexists; vm_compute; reflexivity. Qed.

(* ================================================================== *)
(** * Facts about [sorted] and [set] on strings *)

Module StrFacts.

Import PyStr.

Lemma str_lt_spec a b : lt a b = true <-> OrderedTypeEx.String_as_OT.lt a b.
Proof.
  unfold lt, String.ltb. rewrite <- OrderedTypeEx.String_as_OT.cmp_lt.
  unfold OrderedTypeEx.String_as_OT.cmp.
  destruct (String.compare a b); split; congruence.
Qed.

Lemma str_lt_irrefl a : lt a a = false.
Proof.
  unfold lt, String.ltb.
  pose proof (proj2 (OrderedTypeEx.String_as_OT.cmp_eq a a) Logic.eq_refl) as H.
  unfold OrderedTypeEx.String_as_OT.cmp in H. now rewrite H.
Qed.

Lemma str_lt_asym a b : lt a b = true -> lt b a = false.
Proof.
  unfold lt, String.ltb. rewrite (String.compare_antisym b a).
  now destruct (String.compare a b).
Qed.

Lemma str_lt_trans a b c : lt a b = true -> lt b c = true -> lt a c = true.
Proof. rewrite !str_lt_spec. apply OrderedTypeEx.String_as_OT.lt_trans. Qed.

Lemma str_lt_total a b : lt a b = false -> lt b a = false -> a = b.
Proof.
  unfold lt, String.ltb. rewrite (String.compare_antisym b a).
  destruct (String.compare a b) eqn:Hc; simpl; try discriminate.
  intros _ _. now apply String.compare_eq_iff.
Qed.

Lemma str_le_cases a b : le a b -> a = b \/ lt a b = true.
Proof.
  unfold le. intros H. destruct (lt a b) eqn:Hab; [now right|].
  left. now apply str_lt_total.
Qed.

Lemma str_le_trans a b c : le a b -> le b c -> le a c.
Proof.
  intros Hab Hbc. unfold le. destruct (lt c a) eqn:Hca; [exfalso|reflexivity].
  destruct (str_le_cases _ _ Hab) as [->|Hab'].
  - unfold le in Hbc. congruence.
  - destruct (str_le_cases _ _ Hbc) as [->|Hbc'].
    + unfold le in Hab. congruence.
    + pose proof (str_lt_trans _ _ _ (str_lt_trans _ _ _ Hca Hab') Hbc') as Hcc.
      now rewrite str_lt_irrefl in Hcc.
Qed.

Lemma str_insort_perm x l : Permutation (insort x l) (x :: l).
Proof.
  induction l as [|y ys IH]; simpl; [reflexivity|].
  destruct (lt y x); [|reflexivity].
  rewrite IH. apply perm_swap.
Qed.

Lemma str_sorted_perm l : Permutation (sorted l) l.
Proof.
  induction l as [|x xs IH]; simpl; [reflexivity|].
  rewrite str_insort_perm. now constructor.
Qed.

Lemma str_sorted_In x l : In x (sorted l) <-> In x l.
Proof.
  split; apply Permutation_in; [apply str_sorted_perm | symmetry; apply str_sorted_perm].
Qed.

Lemma str_insort_sorted x l : StronglySorted le l -> StronglySorted le (insort x l).
Proof.
  intros Hs. induction Hs as [|y ys Hs IH Hy]; simpl.
  - repeat constructor.
  - destruct (lt y x) eqn:Hlt.
    + constructor; [exact IH|].
      apply (Permutation_Forall (Permutation_sym (str_insort_perm x ys))).
      constructor; [now apply str_lt_asym | exact Hy].
    + constructor; [now constructor|].
      constructor; [exact Hlt|].
      apply List.Forall_forall. intros z Hz.
      apply str_le_trans with (b := y); [exact Hlt|].
      rewrite List.Forall_forall in Hy. now apply Hy.
Qed.

Lemma str_sorted_sorted l : StronglySorted le (sorted l).
Proof.
  induction l as [|x xs IH]; simpl; [constructor|]. now apply str_insort_sorted.
Qed.

(** Sorted and without repetition: strictly ascending. *)
Lemma str_sorted_strict l :
  List.NoDup l -> StronglySorted (fun a b => lt a b = true) (sorted l).
Proof.
  intros Hnd.
  assert (Hnd' : List.NoDup (sorted l)).
  { apply (Permutation_NoDup (Permutation_sym (str_sorted_perm l)) Hnd). }
  pose proof (str_sorted_sorted l) as Hs.
  induction Hs as [|x xs Hs IH Hx]; [constructor|].
  inversion Hnd' as [|? ? Hnotin Hnd'']; subst.
  constructor; [now apply IH|].
  rewrite List.Forall_forall in *. intros y Hy.
  destruct (str_le_cases _ _ (Hx y Hy)) as [->|H]; [contradiction | exact H].
Qed.

Lemma str_existsb_eqb_In x l : existsb (String.eqb x) l = true <-> In x l.
Proof.
  rewrite existsb_exists. split.
  - intros (y & Hy & Hxy). apply String.eqb_eq in Hxy. now subst.
  - intros H. exists x. split; [exact H | apply String.eqb_refl].
Qed.

Lemma str_set_from_spec l : forall seen,
  List.NoDup seen ->
  List.NoDup (fold_left (fun seen x => set_add x seen) l seen) /\
  forall x, In x (fold_left (fun seen x => set_add x seen) l seen) <-> In x seen \/ In x l.
Proof.
  induction l as [|a xs IH]; intros seen Hnd; simpl.
  - split; [exact Hnd | intuition].
  - assert (Hadd : List.NoDup (set_add a seen) /\
                   forall x, In x (set_add a seen) <-> In x seen \/ a = x).
    { unfold set_add. destruct (existsb (String.eqb a) seen) eqn:Ha.
      - apply str_existsb_eqb_In in Ha. split; [exact Hnd|]. intros x. split; [intuition|].
        intros [H|<-]; assumption.
      - split.
        + apply List.NoDup_app; [exact Hnd | repeat constructor; intros [] |].
          intros x Hx [<-|[]].
          apply str_existsb_eqb_In in Hx. congruence.
        + intros x. rewrite in_app_iff. simpl. intuition. }
    destruct Hadd as [Hnd' Hin]. destruct (IH _ Hnd') as [IH1 IH2].
    split; [exact IH1|]. intros x. rewrite IH2, Hin. intuition.
Qed.

Lemma str_set_NoDup l : List.NoDup (set l).
Proof. apply (str_set_from_spec l []). constructor. Qed.

Lemma str_set_In x l : In x (set l) <-> In x l.
Proof.
  unfold set. rewrite (proj2 (str_set_from_spec l [] (List.NoDup_nil _))). simpl. intuition.
Qed.

End StrFacts.

(* ================================================================== *)
(** * More about the geometry builders and the bounds of a raster *)

Section MinMax.

Import PyFloat FloatFacts.

Lemma fold_min_spec xs : forall m,
  is_num m -> Forall is_num xs ->
  is_num (PyFloat.min m xs) /\ le (PyFloat.min m xs) m /\ Forall (le (PyFloat.min m xs)) xs.
Proof.
  unfold PyFloat.min. induction xs as [|y ys IH]; intros m Hm Hxs; simpl.
  - repeat split; [exact Hm | apply le_refl | constructor].
  - inversion Hxs as [|? ? Hy Hys]; subst.
    set (m' := if lt y m then y else m).
    assert (Hm' : is_num m') by (unfold m'; now destruct (lt y m)).
    assert (Hm'm : le m' m).
    { unfold m'. destruct (lt y m) eqn:Hlt; [now apply lt_le | apply le_refl]. }
    assert (Hm'y : le m' y).
    { unfold m'. destruct (lt y m) eqn:Hlt; [apply le_refl | exact Hlt]. }
    destruct (IH m' Hm' Hys) as (Hr & Hrm & Hrys).
    repeat split; [exact Hr | | constructor; [|exact Hrys]].
    + now apply le_trans with (y := m').
    + now apply le_trans with (y := m').
Qed.

Lemma fold_max_spec xs : forall m,
  is_num m -> Forall is_num xs ->
  is_num (PyFloat.max m xs) /\ le m (PyFloat.max m xs) /\
  Forall (fun x => le x (PyFloat.max m xs)) xs.
Proof.
  unfold PyFloat.max. induction xs as [|y ys IH]; intros m Hm Hxs; simpl.
  - repeat split; [exact Hm | apply le_refl | constructor].
  - inversion Hxs as [|? ? Hy Hys]; subst.
    set (m' := if lt m y then y else m).
    assert (Hm' : is_num m') by (unfold m'; now destruct (lt m y)).
    assert (Hmm' : le m m').
    { unfold m'. destruct (lt m y) eqn:Hlt; [now apply lt_le | apply le_refl]. }
    assert (Hym' : le y m').
    { unfold m'. destruct (lt m y) eqn:Hlt; [apply le_refl | exact Hlt]. }
    destruct (IH m' Hm' Hys) as (Hr & Hrm & Hrys).
    repeat split; [exact Hr | | constructor; [|exact Hrys]].
    + now apply le_trans with (y := m').
    + now apply le_trans with (y := m').
Qed.

End MinMax.

Section MoreGeometry.

Context {E : Externals}.

Import PyFloat FloatFacts.

Lemma map_pair_eta (cs : list coord) : map (fun c => (fst c, snd c)) cs = cs.
Proof. induction cs as [|[x y] cs IH]; simpl; [reflexivity | now rewrite IH]. Qed.

(** What [read_info] returns, piece by piece. *)
Lemma read_info_Ok path info :
  read_info path = Ok info ->
  exists ds c rest,
    rasterio_open path = Ok ds /\ corners ds = c :: rest /\ length rest = 3%nat /\
    ri_path info = path /\
    ri_bounds_polygon info = (c :: rest) ++ [c] /\
    ri_bounds info
    = (PyFloat.min (fst c) (map fst rest), PyFloat.min (snd c) (map snd rest),
       PyFloat.max (fst c) (map fst rest), PyFloat.max (snd c) (map snd rest)).
Proof.
  unfold read_info. intros H. apply bind_Ok in H as (ds & Hds & H).
  pose proof (corners_length ds) as Hlen.
  destruct (corners ds) as [|c rest] eqn:Hc; [discriminate|].
  simpl in H. rewrite map_pair_eta in H. destruct c as [cx cy]. simpl in H.
  injection H as <-. exists ds, (cx, cy), rest. simpl.
  repeat split; trivial. simpl in Hlen. lia.
Qed.

End MoreGeometry.


(** X2. The bounds recorded for a loaded raster enclose its bounds polygon:
    the polygon has five vertices, and when their coordinates are numbers
    each vertex lies between west and east and between south and north. *)
Theorem bounds_enclose_polygon {E : Externals} path info west south east north :
  read_info path = Ok info ->
  ri_bounds info = (west, south, east, north) ->
  Forall (fun c => PyFloat.is_num (fst c) /\ PyFloat.is_num (snd c))
         (ri_bounds_polygon info) ->
  length (ri_bounds_polygon info) = 5%nat /\
  Forall (fun c => PyFloat.le west (fst c) /\ PyFloat.le (fst c) east /\
                   PyFloat.le south (snd c) /\ PyFloat.le (snd c) north)
         (ri_bounds_polygon info).
Proof.
  intros H Hb Hnum.
  apply read_info_Ok in H as (ds & c & rest & _ & _ & Hlen & _ & Hring & Hbounds).
  rewrite Hring in *. rewrite Hbounds in Hb. injection Hb as <- <- <- <-.
  split; [rewrite length_app; simpl; lia|].
  apply List.Forall_app in Hnum as [Hnum _].
  inversion Hnum as [|? ? [Hcx Hcy] Hrest]; subst.
  assert (Hxs : Forall PyFloat.is_num (map fst rest)).
  { apply List.Forall_map. eapply List.Forall_impl; [|exact Hrest]. now intros ? [? ?]. }
  assert (Hys : Forall PyFloat.is_num (map snd rest)).
  { apply List.Forall_map. eapply List.Forall_impl; [|exact Hrest]. now intros ? [? ?]. }
  destruct (fold_min_spec _ _ Hcx Hxs) as (_ & Hw & Hws).
  destruct (fold_min_spec _ _ Hcy Hys) as (_ & Hs & Hss).
  destruct (fold_max_spec _ _ Hcx Hxs) as (_ & He & Hes).
  destruct (fold_max_spec _ _ Hcy Hys) as (_ & Hn & Hns).
  assert (Hall : Forall (fun c0 =>
             PyFloat.le (PyFloat.min (fst c) (map fst rest)) (fst c0) /\
             PyFloat.le (fst c0) (PyFloat.max (fst c) (map fst rest)) /\
             PyFloat.le (PyFloat.min (snd c) (map snd rest)) (snd c0) /\
             PyFloat.le (snd c0) (PyFloat.max (snd c) (map snd rest))) (c :: rest)).
  { constructor; [now repeat split|].
    rewrite List.Forall_forall in *. intros c0 Hc0. repeat split.
    - apply Hws. now apply in_map.
    - apply Hes. now apply in_map.
    - apply Hss. now apply in_map.
    - apply Hns. now apply in_map. }
  apply List.Forall_app. split; [exact Hall|].
  constructor; [|constructor]. now inversion Hall.
Qed.

Lemma bounds_enclose_polygon_witness :
  exists info,
    read_info (E := Demo.mask_world) "dem.tif" = Ok info /\
    ri_bounds info = (10, 0, 11, 1)%float /\
    Forall (fun c => PyFloat.le 10 (fst c) /\ PyFloat.le (fst c) 11 /\
                     PyFloat.le 0 (snd c) /\ PyFloat.le (snd c) 1)
           (ri_bounds_polygon info).
Proof.
  destruct (read_info (E := Demo.mask_world) "dem.tif") as [info|e] eqn:Hinfo;
    [|vm_compute in Hinfo; discriminate].
  assert (Hb : ri_bounds info = (10, 0, 11, 1)%float).
  { vm_compute in Hinfo. injection Hinfo as <-. reflexivity. }
  assert (Hnum : Forall (fun c => PyFloat.is_num (fst c) /\ PyFloat.is_num (snd c))
                        (ri_bounds_polygon info)).
  { vm_compute in Hinfo. injection Hinfo as <-. repeat constructor. }
  exists info. split; [reflexivity|]. split; [exact Hb|].
  exact (proj2 (bounds_enclose_polygon (E := Demo.mask_world)
                  "dem.tif" info _ _ _ _ Hinfo Hb Hnum)).
Defined.

(* ================================================================== *)
(** * More about the statistics *)

Section MoreStats.

Context {E : Externals}.

Lemma fold_insert_pairs_lookup (vals : list (string * float)) :
  forall (out : gmap string float) s,
    is_Some (fold_left (fun out sv => <[fst sv := snd sv]> out) vals out !! s)
    <-> In s (map fst vals) \/ is_Some (out !! s).
Proof.
  induction vals as [|[k v] rest IH]; intros out s; simpl.
  - intuition.
  - rewrite IH. destruct (String.eqb_spec k s) as [->|Hne].
    + rewrite lookup_insert_eq. split; [intros _; now left; left | intros _; right; eauto].
    + rewrite lookup_insert_ne by exact Hne. intuition.
Qed.

Lemma for_each_row_keys (row : gmap string float) names vals :
  for_each (fun s => match row !! s with
                     | Some v => Ok (s, v)
                     | None => Raise (KeyError s)
                     end) names = Ok vals ->
  map fst vals = names.
Proof.
  intros H. apply for_each_Ok in H.
  induction H as [|s sv names vals Hs _ IH]; simpl; [reflexivity|].
  destruct (row !! s); [|discriminate]. injection Hs as <-. simpl. now rewrite IH.
Qed.

Lemma aggregate_ext arr names names' :
  (forall s, In s names <-> In s names') -> aggregate arr names = aggregate arr names'.
Proof.
  intros H. apply map_eq. intros s. rewrite !aggregate_lookup.
  destruct (existsb (String.eqb s) names) eqn:H1, (existsb (String.eqb s) names') eqn:H2;
    trivial.
  - apply existsb_eqb_In, H, existsb_eqb_In in H1. congruence.
  - apply existsb_eqb_In, H, existsb_eqb_In in H2. congruence.
Qed.

Lemma compressed_mask_nodata nd arr :
  compressed (mask_nodata (Some nd) arr)
  = map value (List.filter (fun p => negb (masked p) && negb (PyFloat.eq (value p) nd)) arr).
Proof.
  unfold compressed, mask_nodata, masked_where_eq.
  induction arr as [|p rest IH]; simpl; [reflexivity|].
  rewrite negb_orb. destruct (negb (masked p) && negb (PyFloat.eq (value p) nd)); simpl;
    now rewrite IH.
Qed.

End MoreStats.

(** X3. Whenever [compute_stats] returns, in either branch, the keys of the
    mapping it returns are the requested names, all of them and no other. *)
Theorem compute_stats_keys {E : Externals} tif_path geom stat_names band out :
  compute_stats tif_path geom stat_names band = Ok out ->
  forall s, is_Some (out !! s) <-> In s stat_names.
Proof.
  unfold compute_stats. intros H s. destruct HAS_EXACT.
  - unfold compute_stats_exact in H.
    apply bind_Ok in H as (row & _ & H). apply bind_Ok in H as (vals & Hvals & [= <-]).
    rewrite fold_insert_pairs_lookup, (for_each_row_keys _ _ _ Hvals), lookup_empty.
    split; [intros [H|[? H]]; [exact H | discriminate] | now left].
  - apply compute_stats_fallback_Ok in H as (ds & arrs & arr & _ & _ & _ & ->).
    rewrite aggregate_lookup. destruct (existsb (String.eqb s) stat_names) eqn:Hs.
    + apply existsb_eqb_In in Hs. split; [trivial | eauto].
    + split; [intros [? H]; discriminate|].
      intros Hin. apply existsb_eqb_In in Hin. congruence.
Qed.

Lemma compute_stats_keys_witness :
  exists out,
    compute_stats (E := Demo.mask_world) "dem.tif" (box 10 0 11 1) ["mean"; "range"; "mean"] 1
    = Ok out /\
    (is_Some (out !! "mean") /\ is_Some (out !! "range") /\ out !! "sum" = None).
Proof.
  destruct (compute_stats (E := Demo.mask_world) "dem.tif" (box 10 0 11 1)
              ["mean"; "range"; "mean"] 1) as [out|e] eqn:Hout;
    [|vm_compute in Hout; discriminate].
  pose proof (compute_stats_keys (E := Demo.mask_world) _ _ _ _ _ Hout) as Hkeys.
  exists out. split; [reflexivity|]. repeat split.
  - apply Hkeys. now left.
  - apply Hkeys. now right; left.
  - destruct (out !! "sum") eqn:Hsum; [|reflexivity].
    assert (Hin : In "sum" ["mean"; "range"; "mean"]) by (apply Hkeys; eauto).
    simpl in Hin. intuition discriminate.
Defined.

(** X4. In the fallback the mapping depends on the requested names as a set:
    two requests that name the same statistics, in any order and with any
    repetition, return the same mapping or raise the same exception. *)
Theorem fallback_stat_names_as_set {E : Externals} tif_path geom stat_names stat_names' band :
  HAS_EXACT = false ->
  (forall s, In s stat_names <-> In s stat_names') ->
  compute_stats tif_path geom stat_names band
  = compute_stats tif_path geom stat_names' band.
Proof.
  intros Hex Hsame. unfold compute_stats, compute_stats_fallback. rewrite Hex.
  destruct (rasterio_open tif_path) as [ds|e]; [|reflexivity]. cbn [bind].
  destruct (rio_mask ds (mapping (native_geometry ds geom)) band) as [arrs|e];
    [|reflexivity]. cbn [bind].
  destruct (getitem arrs 0) as [arr|e]; [|reflexivity]. cbn [bind].
  now rewrite (aggregate_ext _ _ _ Hsame).
Qed.

Lemma fallback_stat_names_as_set_witness :
  (HAS_EXACT (Externals := Demo.mask_world) = false /\
   forall s, In s ["sum"; "mean"; "sum"] <-> In s ["mean"; "sum"]) /\
  compute_stats (E := Demo.mask_world) "dem.tif" (box 10 0 11 1) ["sum"; "mean"; "sum"] 1
  = compute_stats (E := Demo.mask_world) "dem.tif" (box 10 0 11 1) ["mean"; "sum"] 1.
Proof.
  assert (Hsame : forall s, In s ["sum"; "mean"; "sum"] <-> In s ["mean"; "sum"]).
  { intros s. simpl. intuition. }
  split; [split; [reflexivity | exact Hsame]|].
  exact (fallback_stat_names_as_set (E := Demo.mask_world) _ _ _ _ _ Logic.eq_refl Hsame).
Defined.

(** X5. In the fallback, on a raster that declares a nodata value, the
    pixels that contribute are those the mask step left unmasked and whose
    value is not equal to the nodata value: "count" is their number and
    "sum" the reduction over their values. *)
Theorem nodata_pixels_do_not_contribute {E : Externals}
    tif_path geom stat_names band ds nd arrs arr :
  HAS_EXACT = false ->
  rasterio_open tif_path = Ok ds ->
  ds_nodata ds = Some nd ->
  rio_mask ds (mapping (native_geometry ds geom)) band = Ok arrs ->
  getitem arrs 0 = Ok arr ->
  exists out,
    compute_stats tif_path geom stat_names band = Ok out /\
    (In "count" stat_names ->
     out !! "count"
     = Some (float_of_nat (length (List.filter
               (fun p => negb (masked p) && negb (PyFloat.eq (value p) nd)) arr)))) /\
    (In "sum" stat_names ->
     out !! "sum"
     = Some (match List.filter
                     (fun p => negb (masked p) && negb (PyFloat.eq (value p) nd)) arr with
             | [] => nan
             | kept => np_sum (map value kept)
             end)).
Proof.
  intros Hex Hds Hnd Harrs Harr.
  exists (aggregate (mask_nodata (Some nd) arr) stat_names). split; [|split].
  - unfold compute_stats. rewrite Hex. apply compute_stats_fallback_Ok.
    exists ds, arrs, arr. now rewrite Hnd.
  - intros Hin. rewrite aggregate_lookup. apply existsb_eqb_In in Hin. rewrite Hin.
    change (stat_value "count" (mask_nodata (Some nd) arr))
      with (float_of_nat (length (compressed (mask_nodata (Some nd) arr)))).
    now rewrite compressed_mask_nodata, length_map.
  - intros Hin. rewrite aggregate_lookup. apply existsb_eqb_In in Hin. rewrite Hin.
    change (stat_value "sum" (mask_nodata (Some nd) arr))
      with (reduce np_sum (mask_nodata (Some nd) arr)).
    unfold reduce. rewrite compressed_mask_nodata.
    now destruct (List.filter _ arr).
Qed.

Lemma nodata_pixels_do_not_contribute_witness :
  let arr := [Demo.px 10; Demo.px (-9999); Demo.hidden 10; Demo.px 7]%float in
  let w := Demo.world false (Demo.dem Demo.wgs84) arr in
  exists out,
    compute_stats (E := w) "dem.tif" (box 10 0 11 1) ["count"; "sum"] 1 = Ok out /\
    out !! "count" = Some 2%float /\
    out !! "sum" = Some 17%float.
Proof.
  intros arr w.
  destruct (nodata_pixels_do_not_contribute (E := w)
              "dem.tif" (box 10 0 11 1) ["count"; "sum"] 1%Z
              (Demo.dem Demo.wgs84) (-9999)%float [arr] arr
              Logic.eq_refl Logic.eq_refl Logic.eq_refl Logic.eq_refl Logic.eq_refl)
    as (out & Hout & Hcount & Hsum).
  exists out. split; [exact Hout|]. split.
  - rewrite Hcount by (now left). reflexivity.
  - rewrite Hsum by (now right; left). reflexivity.
Defined.

(* ================================================================== *)
(** * More about the query runners *)

Section MoreLoops.

Context {A B : Type}.

(** A loop raises exactly when the body raises at some element after it
    returned at every element before it. *)
Lemma for_each_Raise (f : A -> result B) l e :
  for_each f l = Raise e <->
  exists before x after rs,
    l = before ++ x :: after /\ for_each f before = Ok rs /\ f x = Raise e.
Proof.
  induction l as [|a xs IH]; simpl.
  - split; [discriminate|]. intros (before & x & after & rs & H & _).
    now destruct before.
  - split.
    + destruct (f a) as [y|e'] eqn:Ha; cbn [bind].
      * destruct (for_each f xs) as [ys|e''] eqn:Hxs; cbn [bind]; [discriminate|].
        intros [= ->].
        destruct (proj1 IH Logic.eq_refl) as (before & x & after & rs & -> & Hb & Hx).
        exists (a :: before), x, after, (y :: rs). simpl. rewrite Ha, Hb. now repeat split.
      * intros [= ->]. exists [], a, xs, []. now repeat split.
    + intros (before & x & after & rs & Hl & Hb & Hx).
      destruct before as [|b before]; simpl in Hl; injection Hl as -> ->.
      * now rewrite Hx.
      * simpl in Hb. destruct (f b) as [y|]; [|discriminate]. cbn [bind] in *.
        destruct (for_each f before) as [ys|] eqn:Hbefore; [|discriminate].
        assert (Hrest : for_each f (before ++ x :: after) = Raise e).
        { apply IH. now exists before, x, after, ys. }
        now rewrite Hrest.
Qed.

Lemma for_each_ext (f g : A -> result B) l :
  (forall x, f x = g x) -> for_each f l = for_each g l.
Proof.
  intros H. induction l as [|a xs IH]; simpl; [reflexivity|]. now rewrite H, IH.
Qed.

End MoreLoops.

Section MoreQueries.

Context {E : Externals}.

Import PyFloat FloatFacts SortFacts.

Local Open Scope float_scope.



Lemma pairwise_distinct_NoDup l :
  Forall is_num l -> pairwise_distinct l -> List.NoDup l.
Proof.
  unfold pairwise_distinct. intros Hnum Hd.
  induction Hd as [|x xs Hx Hd IH]; [constructor|].
  inversion Hnum as [|? ? Hnx Hnxs]; subst. constructor; [|now apply IH].
  intros Hin. rewrite List.Forall_forall in Hx. specialize (Hx x Hin).
  now rewrite (FloatFacts.eq_refl x Hnx) in Hx.
Qed.

Lemma set_members l y :
  Forall is_num l -> separated l -> In y (PyFloat.set l) <-> In y l.
Proof.
  intros Hnum Hsep. split; [apply set_In|]. intros Hy.
  destruct (set_covers l y Hy) as [H|(z & Hz & Hyz)]; [exact H|].
  assert (y = z) by (apply Hsep; [exact Hy | now apply set_In | exact Hyz]).
  now subst.
Qed.

(** [sorted(set(l))] depends on the values of [l] only. *)
Lemma sorted_set_ext l l' :
  Forall is_num l -> separated l -> (forall x, In x l <-> In x l') ->
  sorted (PyFloat.set l) = sorted (PyFloat.set l').
Proof.
  intros Hnum Hsep Hsame.
  assert (Hnum' : Forall is_num l').
  { rewrite List.Forall_forall in *. intros x Hx. now apply Hnum, Hsame. }
  assert (Hsep' : separated l').
  { intros x y Hx Hy. apply Hsep; now apply Hsame. }
  apply sorted_perm_invariant.
  - now apply set_Forall.
  - intros x y Hx Hy. apply Hsep; now apply set_In.
  - apply Stdlib.Sorting.Permutation.NoDup_Permutation.
    + apply pairwise_distinct_NoDup; [now apply set_Forall | apply set_distinct].
    + apply pairwise_distinct_NoDup; [now apply set_Forall | apply set_distinct].
    + intros x. rewrite (set_members l x Hnum Hsep), (set_members l' x Hnum' Hsep').
      apply Hsame.
Qed.

End MoreQueries.



(** X7. The band query depends on the values of the edges only: for edges
    that are numbers, of which those that compare equal are one value, two
    lists with the same values, in any order and with any repetition, give
    the same results or the same exception. *)
Theorem band_query_edges_as_set {E : Externals}
    tif_path lon lat edges_km edges_km' stat_names band :
  Forall PyFloat.is_num edges_km ->
  PyFloat.separated edges_km ->
  (forall x, In x edges_km <-> In x edges_km') ->
  run_band_query tif_path lon lat edges_km stat_names band
  = run_band_query tif_path lon lat edges_km' stat_names band.
Proof.
  intros Hnum Hsep Hsame. unfold run_band_query.
  now rewrite (sorted_set_ext edges_km edges_km' Hnum Hsep Hsame).
Qed.

Lemma band_query_edges_as_set_witness :
  run_band_query (E := Demo.mask_world) "dem.tif" 10.5 0.5 [20; 5; 10; 5]%float ["sum"] 1
  = run_band_query (E := Demo.mask_world) "dem.tif" 10.5 0.5 [5; 10; 20]%float ["sum"] 1.
Proof.
  apply (band_query_edges_as_set (E := Demo.mask_world)).
  - repeat constructor.
  - intros x y Hx Hy Hxy.
    destruct (FloatFacts.eq_same_or_zeros x y Hxy) as [H|[Hx0 _]]; [exact H|].
    simpl in Hx. destruct Hx as [<-|[<-|[<-|[<-|[]]]]]; vm_compute in Hx0; discriminate.
  - intros x. simpl. intuition.
Defined.

(** X8. When exactextract is imported the band index takes no part in the
    statistics: [compute_stats] and the four query runners return the same
    for any two band indices. *)
Theorem exact_branch_ignores_band {E : Externals} band band' :
  HAS_EXACT = true ->
  (forall tif_path geom stat_names,
      compute_stats tif_path geom stat_names band
      = compute_stats tif_path geom stat_names band') /\
  (forall tif_path lon lat radii_km stat_names,
      run_circle_query tif_path lon lat radii_km stat_names band
      = run_circle_query tif_path lon lat radii_km stat_names band') /\
  (forall tif_path lon lat edges_km stat_names,
      run_band_query tif_path lon lat edges_km stat_names band
      = run_band_query tif_path lon lat edges_km stat_names band') /\
  (forall tif_path lon lat half_w_km half_h_km stat_names,
      run_rect_query tif_path lon lat half_w_km half_h_km stat_names band
      = run_rect_query tif_path lon lat half_w_km half_h_km stat_names band') /\
  (forall tif_path points radius_km stat_names,
      run_compare_query tif_path points radius_km stat_names band
      = run_compare_query tif_path points radius_km stat_names band').
Proof.
  intros Hex.
  assert (Hstats : forall tif_path geom stat_names,
             compute_stats tif_path geom stat_names band
             = compute_stats tif_path geom stat_names band').
  { intros. unfold compute_stats. now rewrite Hex. }
  split; [exact Hstats|]. split; [|split; [|split]].
  - intros. unfold run_circle_query. apply for_each_ext. intros r.
    destruct (geodesic_circle _ _ _ _); cbn [bind]; [now rewrite Hstats | reflexivity].
  - intros. unfold run_band_query. apply for_each_ext. intros i. unfold band_result.
    destruct (getitem _ i); cbn [bind]; [|reflexivity].
    destruct (getitem _ (i + 1)); cbn [bind]; [|reflexivity].
    destruct (geodesic_annulus _ _ _ _ _); cbn [bind]; [now rewrite Hstats | reflexivity].
  - intros. unfold run_rect_query. now rewrite Hstats.
  - intros. unfold run_compare_query. apply for_each_ext. intros pt.
    destruct (geodesic_circle _ _ _ _); cbn [bind]; [now rewrite Hstats | reflexivity].
Qed.

Lemma exact_branch_ignores_band_witness :
  HAS_EXACT (Externals := Demo.exact_world) = true /\
  run_circle_query (E := Demo.exact_world) "dem.tif" 10.5 0.5 [5; 1]%float ["sum"] 1
  = run_circle_query (E := Demo.exact_world) "dem.tif" 10.5 0.5 [5; 1]%float ["sum"] 7.
Proof.
  split; [reflexivity|].
  apply (exact_branch_ignores_band (E := Demo.exact_world) 1 7 Logic.eq_refl).
Defined.

(* ================================================================== *)
(** * The raster store and the uploads *)

Section StoreFacts.

Context {E : Externals} {P : Platform}.

Lemma store_remove_lookup self d rid k :
  _rasters (fst (store_remove self d rid)) !! k
  = if String.eqb k rid then None else _rasters self !! k.
Proof.
  unfold store_remove. destruct (String.eqb_spec k rid) as [->|Hne].
  - destruct (_rasters self !! rid) as [info|] eqn:Hrid; [|exact Hrid].
    destruct (os_exists (ri_path info) d); simpl; apply lookup_delete_eq.
  - destruct (_rasters self !! rid) as [info|] eqn:Hrid; [|reflexivity].
    destruct (os_exists (ri_path info) d); simpl; apply lookup_delete_ne; congruence.
Qed.

Lemma store_remove_tmp_dir self d rid :
  _tmp_dir (fst (store_remove self d rid)) = _tmp_dir self.
Proof.
  unfold store_remove. destruct (_rasters self !! rid) as [info|]; [|reflexivity].
  now destruct (os_exists (ri_path info) d).
Qed.

Lemma fold_remove_lookup rids : forall self d k,
  _rasters (fst (fold_left (fun sd rid => store_remove (fst sd) (snd sd) rid)
                           rids (self, d))) !! k
  = if existsb (String.eqb k) rids then None else _rasters self !! k.
Proof.
  induction rids as [|rid rest IH]; intros self d k; simpl; [reflexivity|].
  destruct (store_remove self d rid) as [self1 d1] eqn:Hrm.
  rewrite IH. pose proof (store_remove_lookup self d rid k) as Hk.
  rewrite Hrm in Hk. simpl in Hk. rewrite Hk.
  destruct (String.eqb k rid); simpl; [|reflexivity].
  now destruct (existsb (String.eqb k) rest).
Qed.

Lemma fold_remove_tmp_dir rids : forall self d,
  _tmp_dir (fst (fold_left (fun sd rid => store_remove (fst sd) (snd sd) rid)
                           rids (self, d)))
  = _tmp_dir self.
Proof.
  induction rids as [|rid rest IH]; intros self d; simpl; [reflexivity|].
  destruct (store_remove self d rid) as [self1 d1] eqn:Hrm.
  rewrite IH. pose proof (store_remove_tmp_dir self d rid) as Ht.
  now rewrite Hrm in Ht.
Qed.

(** What [store_load] did when it returned. *)
Lemma store_load_Ok self d raster_id filename data d' self' rid info :
  store_load self d raster_id filename data = (d', Ok (self', (rid, info))) ->
  rid = raster_id /\
  os_write (upload_path self raster_id filename) data d = (d', None) /\
  read_info (upload_path self raster_id filename) = Ok info /\
  _rasters self' = <[raster_id := info]> (_rasters self) /\
  _tmp_dir self' = _tmp_dir self.
Proof.
  unfold store_load, load.
  destruct (os_write _ data d) as [d1 [e|]]; [discriminate|].
  destruct (read_info _) as [info'|e]; cbn [bind]; [|discriminate].
  intros [= <- <- <- <-]. now repeat split.
Qed.

End StoreFacts.

(** X9. [RasterStore.remove] unregisters the raster and nothing else: the
    identifier is no longer in the registry, every other entry and the
    temporary directory are as before.  The file is unlinked only when it
    exists, and whether or not the unlink raises, the removal goes through;
    removing an identifier that is not registered changes nothing, so a
    second removal is without effect. *)
Theorem store_remove_unregisters {P : Platform} self d rid :
  _rasters (fst (store_remove self d rid)) !! rid = None /\
  (forall other, other <> rid ->
     _rasters (fst (store_remove self d rid)) !! other = _rasters self !! other) /\
  _tmp_dir (fst (store_remove self d rid)) = _tmp_dir self /\
  (forall info, _rasters self !! rid = Some info ->
     snd (store_remove self d rid)
     = if os_exists (ri_path info) d then fst (os_unlink (ri_path info) d) else d) /\
  (_rasters self !! rid = None -> store_remove self d rid = (self, d)) /\
  store_remove (fst (store_remove self d rid)) (snd (store_remove self d rid)) rid
  = store_remove self d rid.
Proof.
  assert (Hnone : forall s x, _rasters s !! rid = None -> store_remove s x rid = (s, x)).
  { intros s x H. unfold store_remove. now rewrite H. }
  split; [|split; [|split; [|split; [|split]]]].
  - rewrite store_remove_lookup. now rewrite String.eqb_refl.
  - intros other Hne. rewrite store_remove_lookup.
    now destruct (String.eqb_spec other rid).
  - apply store_remove_tmp_dir.
  - intros info Hinfo. unfold store_remove. rewrite Hinfo.
    now destruct (os_exists (ri_path info) d).
  - apply Hnone.
  - rewrite Hnone; [now destruct (store_remove self d rid)|].
    rewrite store_remove_lookup. now rewrite String.eqb_refl.
Qed.

(** X10. [RasterStore.cleanup_all], run over the registered identifiers in
    any order, leaves the registry empty, whatever the unlinks and the
    removal of the directory raise. *)
Theorem store_cleanup_all_empties {P : Platform} self d rids :
  (forall rid, is_Some (_rasters self !! rid) -> In rid rids) ->
  _rasters (fst (store_cleanup_all self d rids)) = ∅ /\
  _tmp_dir (fst (store_cleanup_all self d rids)) = _tmp_dir self.
Proof.
  intros Hall. unfold store_cleanup_all.
  pose proof (fold_remove_lookup rids self d) as Hlook.
  pose proof (fold_remove_tmp_dir rids self d) as Htmp.
  destruct (fold_left _ rids (self, d)) as [self1 d1]. simpl in *. split; [|exact Htmp].
  apply map_eq. intros k. rewrite Hlook, lookup_empty.
  destruct (existsb (String.eqb k) rids) eqn:Hk; [reflexivity|].
  destruct (_rasters self !! k) eqn:Hsome; [|reflexivity].
  assert (Hin : In k rids) by (apply Hall; eauto).
  apply existsb_eqb_In in Hin. congruence.
Qed.

Lemma store_cleanup_all_empties_witness :
  (forall rid, is_Some (_rasters (fst DemoOS.loaded) !! rid) -> In rid ["r1"]) /\
  elements (snd DemoOS.loaded) = ["/tmp/geo_analyzer_x/r1.tif"] /\
  _rasters (fst (store_cleanup_all (P := DemoOS.platform)
                   (fst DemoOS.loaded) (snd DemoOS.loaded) ["r1"])) = ∅ /\
  elements (snd (store_cleanup_all (P := DemoOS.platform)
                   (fst DemoOS.loaded) (snd DemoOS.loaded) ["r1"])) = [].
Proof.
  assert (Hall : forall rid,
             is_Some (_rasters (fst DemoOS.loaded) !! rid) -> In rid ["r1"]).
  { intros rid Hrid. apply elem_of_dom in Hrid.
    assert (Hdom : dom (_rasters (fst DemoOS.loaded)) = {["r1"]})
      by (vm_compute; reflexivity).
    rewrite Hdom in Hrid. apply elem_of_singleton in Hrid. now left. }
  split; [exact Hall|]. split; [vm_compute; reflexivity|].
  split; [|vm_compute; reflexivity].
  exact (proj1 (store_cleanup_all_empties (P := DemoOS.platform) _ _ _ Hall)).
Defined.

Section UploadFacts.

Context {E : Externals} {P : Platform}.

Lemma parse_missing_raster_id store fields :
  (dict_lookup fields "raster_id" = None \/
   exists v, dict_lookup fields "raster_id" = Some v /\ truthy v = false) ->
  _parse_query_params store (JObj fields) = Raise (ValueError "Missing raster_id").
Proof.
  unfold _parse_query_params, py_get. intros [->|(v & -> & Hv)]; cbn [bind].
  - reflexivity.
  - now rewrite Hv.
Qed.

Lemma parse_raster_not_found store fields rid :
  dict_lookup fields "raster_id" = Some (JStr rid) -> rid <> "" ->
  store !! rid = None ->
  _parse_query_params store (JObj fields)
  = Raise (ValueError "Raster not found. Upload first.").
Proof.
  unfold _parse_query_params, py_get. intros -> Hne Hnone. cbn [bind truthy].
  destruct (String.eqb_spec rid "") as [->|_]; [congruence|].
  cbn [negb store_get bind]. unfold get. now rewrite Hnone.
Qed.

(** An exception of the common parsing is the exception of every first
    [try] block. *)
Lemma params_parse_Raise store data e :
  _parse_query_params store data = Raise e ->
  circle_params store data = Raise e /\ band_params store data = Raise e /\
  rect_params store data = Raise e /\ compare_params store data = Raise e.
Proof.
  intros H. unfold circle_params, band_params, rect_params, compare_params.
  now rewrite H.
Qed.

Lemma handlers_parse_Raise store data e :
  _parse_query_params store data = Raise e -> bad_request e = true ->
  query_circle store data = Error 400 (exn_str e) /\
  query_band store data = Error 400 (exn_str e) /\
  query_rect store data = Error 400 (exn_str e).
Proof.
  intros H Hbad. destruct (params_parse_Raise store data e H) as (Hc & Hb & Hr & _).
  unfold query_circle, query_band, query_rect, handle. now rewrite Hc, Hb, Hr, Hbad.
Qed.

(** What an upload did when it answers with status 200. *)
Lemma upload_raster_200 self d file raster_id self' d' body :
  upload_raster self d file raster_id = (self', d', Reply 200 body) ->
  exists filename data info,
    file = Some (filename, data) /\
    body = upload_body raster_id filename info /\
    read_info (upload_path self raster_id filename) = Ok info /\
    _rasters self' = <[raster_id := info]> (_rasters self).
Proof.
  unfold upload_raster. intros H.
  destruct file as [[filename data]|]; [|discriminate].
  destruct (String.eqb filename ""); [discriminate|].
  destruct data as [|b data]; [discriminate|].
  destruct (store_load self d raster_id filename (b :: data)) as [d1 [[s1 [rid info]]|e]]
    eqn:Hload; [|discriminate].
  injection H as <- <- <-. apply store_load_Ok in Hload as (-> & _ & Hinfo & Hr & _).
  now exists filename, (b :: data), info.
Qed.

End UploadFacts.

(** X11. An upload either registers the raster or leaves the registry as it
    was.  With status 200 the registry holds, under the new identifier, the
    information the body reports, read from the file written under the
    store's directory; every other answer has status 400 and an error
    message, and the registry is unchanged. *)
Theorem upload_registers_or_rejects {E : Externals} {P : Platform}
    self d file raster_id self' d' answer :
  upload_raster self d file raster_id = (self', d', answer) ->
  (exists filename data info,
      file = Some (filename, data) /\ filename <> "" /\ data <> [] /\
      answer = Reply 200 (upload_body raster_id filename info) /\
      read_info (upload_path self raster_id filename) = Ok info /\
      os_write (upload_path self raster_id filename) data d = (d', None) /\
      _rasters self' = <[raster_id := info]> (_rasters self) /\
      _tmp_dir self' = _tmp_dir self) \/
  (exists msg, answer = Reply 400 (error_body msg) /\ self' = self).
Proof.
  unfold upload_raster. intros H.
  destruct file as [[filename data]|]; [|injection H as <- <- <-; right; eauto].
  destruct (String.eqb_spec filename "") as [->|Hname];
    [injection H as <- <- <-; right; eauto|].
  destruct data as [|b data]; [injection H as <- <- <-; right; eauto|].
  destruct (store_load self d raster_id filename (b :: data)) as [d1 [[s1 [rid info]]|e]]
    eqn:Hload.
  - injection H as <- <- <-. apply store_load_Ok in Hload as (-> & Hw & Hinfo & Hr & Ht).
    left. exists filename, (b :: data), info. now repeat split.
  - injection H as <- <- <-. right. eauto.
Qed.

Lemma upload_registers_or_rejects_witness :
  exists info,
    upload_raster (E := DemoOS.world) (P := DemoOS.platform)
      DemoOS.empty_store ∅ (Some ("dem.tif", [Byte.x00])) "r1"
    = (fst DemoOS.loaded, snd DemoOS.loaded, Reply 200 (upload_body "r1" "dem.tif" info)) /\
    _rasters (fst DemoOS.loaded) !! "r1" = Some info.
Proof.
  destruct (upload_raster (E := DemoOS.world) (P := DemoOS.platform)
              DemoOS.empty_store ∅ (Some ("dem.tif", [Byte.x00])) "r1")
    as [[self' d'] answer] eqn:Hup.
  assert (Hstate : DemoOS.loaded = (self', d')).
  { unfold DemoOS.loaded. now rewrite Hup. }
  destruct (upload_registers_or_rejects (E := DemoOS.world) (P := DemoOS.platform)
              _ _ _ _ _ _ _ Hup)
    as [(filename & data & info & Hfile & _ & _ & -> & _ & _ & Hr & _)|(msg & -> & _)].
  - injection Hfile as <- <-. exists info. rewrite Hstate. simpl.
    split; [reflexivity|]. rewrite Hr. apply lookup_insert_eq.
  - vm_compute in Hup. discriminate.
Defined.

(** X12. The checks of an upload come before any write: a request without
    file, with an empty file name or with an empty file is answered with
    status 400 and the disk is untouched.  A file that was written and that
    rasterio cannot read is answered with status 400 and the library's
    message; the file stays where it was written. *)
Theorem upload_rejections {E : Externals} {P : Platform} self d raster_id :
  upload_raster self d None raster_id
  = (self, d, Reply 400 (error_body "No file provided")) /\
  (forall data,
      upload_raster self d (Some ("", data)) raster_id
      = (self, d, Reply 400 (error_body "Empty filename"))) /\
  (forall filename,
      filename <> "" ->
      upload_raster self d (Some (filename, [])) raster_id
      = (self, d, Reply 400 (error_body "Empty file"))) /\
  (forall filename data d' e,
      filename <> "" -> data <> [] ->
      os_write (upload_path self raster_id filename) data d = (d', None) ->
      rasterio_open (upload_path self raster_id filename) = Raise e ->
      upload_raster self d (Some (filename, data)) raster_id
      = (self, d', Reply 400 (error_body ("Failed to load raster: " ++ exn_str e)))).
Proof.
  split; [reflexivity|]. split; [reflexivity|]. split.
  - intros filename Hname. unfold upload_raster.
    now destruct (String.eqb_spec filename "").
  - intros filename data d' e Hname Hdata Hw Hopen. unfold upload_raster.
    destruct (String.eqb_spec filename "") as [|_]; [contradiction|].
    destruct data as [|b data]; [contradiction|].
    unfold store_load, load, read_info. rewrite Hw, Hopen. reflexivity.
Qed.

(** A file that is no raster stays on the disk of the stand-in. *)
Example rejected_upload_leaves_file :
  let up := upload_raster (E := DemoOS.world) (P := DemoOS.platform)
              DemoOS.empty_store ∅ (Some ("notes.txt", [Byte.x00])) "r2" in
  snd up = Reply 400 (error_body
             "Failed to load raster: not recognized as a supported file format") /\
  _rasters (fst (fst up)) = ∅ /\
  elements (snd (fst up)) = ["/tmp/geo_analyzer_x/r2.txt"].
Proof. repeat split; vm_compute; reflexivity. Qed.

(** X13. After an upload answered with status 200, a request that names the
    new identifier finds the raster: the parameter parsing returns the
    information the upload reported, whose path is the file written under
    the store's directory. *)
Theorem upload_then_query {E : Externals} {P : Platform}
    self d file raster_id self' d' body fields :
  upload_raster self d file raster_id = (self', d', Reply 200 body) ->
  raster_id <> "" ->
  dict_lookup fields "raster_id" = Some (JStr raster_id) ->
  (dict_lookup fields "stats" = None \/
   exists items, dict_lookup fields "stats" = Some (JArr items)) ->
  (dict_lookup fields "band" = None \/
   exists z, dict_lookup fields "band" = Some (JInt z)) ->
  exists filename data info stat_names band,
    file = Some (filename, data) /\
    body = upload_body raster_id filename info /\
    ri_path info = upload_path self raster_id filename /\
    _parse_query_params (_rasters self') (JObj fields) = Ok (info, stat_names, band).
Proof.
  intros Hup Hne Hrid Hstats Hband.
  apply upload_raster_200 in Hup as (filename & data & info & -> & -> & Hinfo & Hr).
  assert (Hlook : _rasters self' !! raster_id = Some info).
  { rewrite Hr. apply lookup_insert_eq. }
  destruct (parse_query_params_total (_rasters self') fields raster_id info
              Hrid Hne Hlook Hstats Hband) as (stat_names & band & Hparse).
  exists filename, data, info, stat_names, band. repeat split; trivial.
  now apply read_info_Ok in Hinfo as (? & ? & ? & _ & _ & _ & Hpath & _).
Qed.

Lemma upload_then_query_witness :
  exists info stat_names band,
    _rasters (fst DemoOS.loaded) !! "r1" = Some info /\
    ri_path info = "/tmp/geo_analyzer_x/r1.tif" /\
    _parse_query_params (E := DemoOS.world) (_rasters (fst DemoOS.loaded))
      (JObj [("raster_id", JStr "r1"); ("stats", JArr [JStr "mean"])])
    = Ok (info, stat_names, band).
Proof.
  destruct (upload_raster (E := DemoOS.world) (P := DemoOS.platform)
              DemoOS.empty_store ∅ (Some ("dem.tif", [Byte.x00])) "r1")
    as [[self' d'] answer] eqn:Hup.
  assert (Hstate : DemoOS.loaded = (self', d')).
  { unfold DemoOS.loaded. now rewrite Hup. }
  destruct answer as [status body|e]; [|vm_compute in Hup; discriminate].
  assert (Hstatus : status = 200%Z).
  { vm_compute in Hup. now injection Hup as _ _ <- _. }
  subst status.
  destruct (upload_then_query (E := DemoOS.world) (P := DemoOS.platform)
              _ _ _ _ _ _ _
              [("raster_id", JStr "r1"); ("stats", JArr [JStr "mean"])]
              Hup ltac:(discriminate) Logic.eq_refl
              (or_intror (ex_intro _ [JStr "mean"] Logic.eq_refl))
              (or_introl Logic.eq_refl))
    as (filename & data & info & stat_names & band & Hfile & _ & Hpath & Hparse).
  injection Hfile as <- <-.
  exists info, stat_names, band. rewrite Hstate. simpl. split; [|split].
  - pose proof Hparse as Hp. unfold _parse_query_params in Hp.
    cbn [py_get dict_lookup String.eqb Ascii.eqb Bool.eqb bind truthy negb store_get] in Hp.
    unfold get in Hp. destruct (_rasters self' !! "r1") as [info'|]; [|discriminate].
    cbn in Hp. now injection Hp as ->.
  - exact Hpath.
  - exact Hparse.
Defined.

(** X14. An unload is always answered with status 200, and afterwards every
    query that names the unloaded identifier is refused with status 400,
    "Raster not found. Upload first.", whatever else it holds. *)
Theorem unload_then_query {E : Externals} {P : Platform} self d raster_id fields :
  raster_id <> "" ->
  dict_lookup fields "raster_id" = Some (JStr raster_id) ->
  snd (unload_raster self d raster_id) = Reply 200 (JObj [("ok", JBool true)]) /\
  query_circle (_rasters (fst (fst (unload_raster self d raster_id)))) (JObj fields)
  = Error 400 "Raster not found. Upload first." /\
  query_band (_rasters (fst (fst (unload_raster self d raster_id)))) (JObj fields)
  = Error 400 "Raster not found. Upload first." /\
  query_rect (_rasters (fst (fst (unload_raster self d raster_id)))) (JObj fields)
  = Error 400 "Raster not found. Upload first." /\
  compare_params (_rasters (fst (fst (unload_raster self d raster_id)))) (JObj fields)
  = Raise (ValueError "Raster not found. Upload first.").
Proof.
  intros Hne Hrid.
  assert (Hgone : _rasters (fst (fst (unload_raster self d raster_id))) !! raster_id = None).
  { unfold unload_raster. pose proof (store_remove_lookup self d raster_id raster_id) as H.
    destruct (store_remove self d raster_id) as [s1 d1]. simpl in *.
    now rewrite String.eqb_refl in H. }
  split.
  - unfold unload_raster. now destruct (store_remove self d raster_id).
  - pose proof (parse_raster_not_found _ fields raster_id Hrid Hne Hgone) as Hparse.
    destruct (handlers_parse_Raise _ _ _ Hparse Logic.eq_refl) as (Hc & Hb & Hr).
    destruct (params_parse_Raise _ _ _ Hparse) as (_ & _ & _ & Hcmp).
    now repeat split.
Qed.

Lemma unload_then_query_witness :
  let request := [("raster_id", JStr "r1"); ("lon", JFloat 10.5); ("lat", JFloat 0.5);
                  ("radii_km", JArr [JFloat 1])] in
  (exists results,
      query_circle (E := DemoOS.world) (_rasters (fst DemoOS.loaded)) (JObj request)
      = Results results) /\
  query_circle (E := DemoOS.world)
    (_rasters (fst (fst (unload_raster (P := DemoOS.platform)
                           (fst DemoOS.loaded) (snd DemoOS.loaded) "r1"))))
    (JObj request)
  = Error 400 "Raster not found. Upload first.".
Proof.
  intros request. split.
  - eexists. vm_compute. reflexivity.
  - apply (unload_then_query (E := DemoOS.world) (P := DemoOS.platform)
             (fst DemoOS.loaded) (snd DemoOS.loaded) "r1" request);
      [discriminate | reflexivity].
Defined.

(** X15. A request without raster identifier, or with one that is false for
    Python (null, the empty string, zero, an empty list), is refused by the
    four handlers before anything else is read: status 400, "Missing
    raster_id". *)
Theorem missing_raster_id_rejected {E : Externals} store fields :
  (dict_lookup fields "raster_id" = None \/
   exists v, dict_lookup fields "raster_id" = Some v /\ truthy v = false) ->
  query_circle store (JObj fields) = Error 400 "Missing raster_id" /\
  query_band store (JObj fields) = Error 400 "Missing raster_id" /\
  query_rect store (JObj fields) = Error 400 "Missing raster_id" /\
  compare_params store (JObj fields) = Raise (ValueError "Missing raster_id").
Proof.
  intros H. pose proof (parse_missing_raster_id store fields H) as Hparse.
  destruct (handlers_parse_Raise _ _ _ Hparse Logic.eq_refl) as (Hc & Hb & Hr).
  destruct (params_parse_Raise _ _ _ Hparse) as (_ & _ & _ & Hcmp).
  now repeat split.
Qed.

Lemma missing_raster_id_rejected_witness :
  query_band (E := Demo.mask_world) Demo.store
    (JObj [("raster_id", JStr ""); ("lon", JFloat 10.5); ("lat", JFloat 0.5);
           ("edges_km", JArr [JFloat 1; JFloat 2])])
  = Error 400 "Missing raster_id".
Proof.
  apply (missing_raster_id_rejected (E := Demo.mask_world)).
  right. exists (JStr ""). split; reflexivity.
Defined.

(** X16. A body that is not a JSON object is not answered with an error
    message: the [AttributeError] of [data.get] is none of the exceptions
    the handlers catch, and leaves every one of them, the export included. *)
Theorem non_object_body_escapes {E : Externals} {P : Platform} store data :
  (forall fields, data <> JObj fields) ->
  exists e,
    bad_request e = false /\
    query_circle store data = Uncaught e /\
    query_band store data = Uncaught e /\
    query_rect store data = Uncaught e /\
    compare_params store data = Raise e /\
    export_csv data = Crash e.
Proof.
  intros Hnot. exists (AttributeError "object has no attribute 'get'").
  assert (Hget : forall key default,
             py_get data key default
             = Raise (AttributeError "object has no attribute 'get'")).
  { intros. destruct data; try reflexivity. now destruct (Hnot fields). }
  assert (Hparse : _parse_query_params store data
                   = Raise (AttributeError "object has no attribute 'get'")).
  { unfold _parse_query_params. now rewrite Hget. }
  destruct (params_parse_Raise _ _ _ Hparse) as (Hc & Hb & Hr & Hcmp).
  unfold query_circle, query_band, query_rect, handle, export_csv.
  rewrite Hc, Hb, Hr, Hget. now repeat split.
Qed.

Lemma non_object_body_escapes_witness :
  query_circle (E := Demo.mask_world) Demo.store (JArr [JStr "r1"])
  = Uncaught (AttributeError "object has no attribute 'get'").
Proof.
  destruct (non_object_body_escapes (E := Demo.mask_world) (P := DemoOS.platform)
              Demo.store (JArr [JStr "r1"])) as (e & _ & Hc & _);
    [discriminate|].
  rewrite Hc. vm_compute in Hc. now injection Hc as <-.
Defined.

(* ------------------------------------------------------------------ *)
(** ** What the handlers refuse and what they let through *)

Section HandlerFacts.

Context {E : Externals}.

Lemma handle_params_Raise {A : Type} (params : result (call A)) run e :
  params = Raise e -> bad_request e = true -> handle params run = Error 400 (exn_str e).
Proof. intros -> He. unfold handle. now rewrite He. Qed.

(** No name of [VALID_STATS] is a single character. *)
Lemma keep_valid_chars s : keep_valid (map JStr (chars s)) = [].
Proof.
  rewrite keep_valid_strings.
  induction s as [|c rest IH]; [reflexivity|]. cbn [chars List.filter].
  replace (recognized (String c EmptyString)) with false; [exact IH|].
  unfold recognized, VALID_STATS. cbn [existsb String.eqb].
  repeat match goal with
         | |- context [Ascii.eqb ?a ?b] => destruct (Ascii.eqb a b)
         end; reflexivity.
Qed.

Lemma dict_lookup_set_eq fields key v : dict_lookup (dict_set fields key v) key = Some v.
Proof.
  induction fields as [|[k w] rest IH]; simpl.
  - now rewrite String.eqb_refl.
  - destruct (String.eqb k key) eqn:Hk; simpl; now rewrite Hk.
Qed.

Lemma dict_lookup_set_ne fields key v k' :
  k' <> key -> dict_lookup (dict_set fields key v) k' = dict_lookup fields k'.
Proof.
  intros Hne. induction fields as [|[k w] rest IH]; simpl.
  - destruct (String.eqb_spec key k'); [congruence | reflexivity].
  - destruct (String.eqb_spec k key) as [->|Hk]; simpl.
    + destruct (String.eqb_spec key k'); [congruence | reflexivity].
    + now rewrite IH.
Qed.

Lemma dict_set_keys fields key v w :
  dict_lookup fields key = Some w -> map fst (dict_set fields key v) = map fst fields.
Proof.
  induction fields as [|[k u] rest IH]; simpl; [discriminate|].
  destruct (String.eqb k key); simpl; [reflexivity|].
  intros H. now rewrite IH.
Qed.


End HandlerFacts.

(** X17. The two length checks of the handlers are exact.  Once the common
    parameters and the centre were read, a band query is refused with
    status 400, "Need at least 2 edges", exactly when fewer than two edges
    were given, and a circle query with "No radii provided" exactly when
    the list of radii is empty; otherwise the values go to the engine as
    they were given, in their order and with their repetitions. *)
Theorem too_few_values_rejected {E : Externals} store data info stat_names band lon lat :
  _parse_query_params store data = Ok (info, stat_names, band) ->
  float_field data "lon" = Ok lon ->
  float_field data "lat" = Ok lat ->
  (forall edges, float_list_field data "edges_km" = Ok edges ->
     if (length edges <? 2)%nat
     then query_band store data = Error 400 "Need at least 2 edges"
     else band_params store data
          = Ok {| call_info := info; call_stats := stat_names; call_band := band;
                  call_shape := (lon, lat, edges) |}) /\
  (forall radii, float_list_field data "radii_km" = Ok radii ->
     match radii with
     | [] => query_circle store data = Error 400 "No radii provided"
     | _ => circle_params store data
            = Ok {| call_info := info; call_stats := stat_names; call_band := band;
                    call_shape := (lon, lat, radii) |}
     end).
Proof.
  intros Hparse Hlon Hlat. split.
  - intros edges Hedges.
    assert (Hp : band_params store data
                 = if (length edges <? 2)%nat then Raise (ValueError "Need at least 2 edges")
                   else Ok {| call_info := info; call_stats := stat_names;
                              call_band := band; call_shape := (lon, lat, edges) |}).
    { unfold band_params. rewrite Hparse. cbn [bind]. rewrite Hlon. cbn [bind].
      rewrite Hlat. cbn [bind]. rewrite Hedges. reflexivity. }
    destruct (length edges <? 2)%nat; [|exact Hp].
    unfold query_band. now rewrite (handle_params_Raise _ _ _ Hp Logic.eq_refl).
  - intros radii Hradii.
    assert (Hp : circle_params store data
                 = match radii with
                   | [] => Raise (ValueError "No radii provided")
                   | _ => Ok {| call_info := info; call_stats := stat_names;
                                call_band := band; call_shape := (lon, lat, radii) |}
                   end).
    { unfold circle_params. rewrite Hparse. cbn [bind]. rewrite Hlon. cbn [bind].
      rewrite Hlat. cbn [bind]. rewrite Hradii. reflexivity. }
    destruct radii; [|exact Hp].
    unfold query_circle. now rewrite (handle_params_Raise _ _ _ Hp Logic.eq_refl).
Qed.

Lemma too_few_values_rejected_witness :
  query_band (E := Demo.mask_world) Demo.store
    (JObj [("raster_id", JStr "r1"); ("lon", JFloat 10.5); ("lat", JFloat 0.5);
           ("edges_km", JArr [JFloat 5]); ("radii_km", JArr [])])
  = Error 400 "Need at least 2 edges" /\
  query_circle (E := Demo.mask_world) Demo.store
    (JObj [("raster_id", JStr "r1"); ("lon", JFloat 10.5); ("lat", JFloat 0.5);
           ("edges_km", JArr [JFloat 5]); ("radii_km", JArr [])])
  = Error 400 "No radii provided".
Proof.
  set (data := JObj [("raster_id", JStr "r1"); ("lon", JFloat 10.5); ("lat", JFloat 0.5);
                     ("edges_km", JArr [JFloat 5]); ("radii_km", JArr [])]).
  destruct (_parse_query_params (E := Demo.mask_world) Demo.store data)
    as [[[info stat_names] band]|e] eqn:Hparse; [|vm_compute in Hparse; discriminate].
  destruct (too_few_values_rejected (E := Demo.mask_world) Demo.store data
              info stat_names band 10.5 0.5 Hparse Logic.eq_refl Logic.eq_refl)
    as [Hband Hcircle].
  split.
  - exact (Hband [5%float] Logic.eq_refl).
  - exact (Hcircle [] Logic.eq_refl).
Defined.

(** X18. A request for a loaded raster whose "stats" field is a string,
    "mean" say, and not a list of names, is not refused: the string is read
    character by character, no character is a statistic name, and the
    parameters are accepted with the default, the sum alone, whenever the
    band converts to an integer. *)
Theorem stats_given_as_string {E : Externals} store fields raster_id info s band :
  dict_lookup fields "raster_id" = Some (JStr raster_id) ->
  raster_id <> "" ->
  store !! raster_id = Some info ->
  dict_lookup fields "stats" = Some (JStr s) ->
  py_int (match dict_lookup fields "band" with Some v => v | None => JInt 1 end) = Ok band ->
  _parse_query_params store (JObj fields) = Ok (info, ["sum"], band).
Proof.
  intros Hrid Hne Hinfo Hs Hband. unfold _parse_query_params, py_get.
  rewrite Hrid. cbn [bind truthy].
  destruct (String.eqb_spec raster_id "") as [->|_]; [congruence|].
  cbn [negb store_get bind]. unfold get. rewrite Hinfo, Hs. cbn [py_iter bind].
  rewrite keep_valid_chars, Hband. reflexivity.
Qed.

Lemma stats_given_as_string_witness :
  exists info,
    Demo.store !! "r1" = Some info /\
    _parse_query_params (E := Demo.mask_world) Demo.store
      (JObj [("raster_id", JStr "r1"); ("stats", JStr "mean")])
    = Ok (info, ["sum"], 1%Z) /\
    _parse_query_params (E := Demo.mask_world) Demo.store
      (JObj [("raster_id", JStr "r1"); ("stats", JArr [JStr "mean"])])
    = Ok (info, ["mean"], 1%Z).
Proof.
  destruct (Demo.store !! "r1") as [info|] eqn:Hinfo; [|vm_compute in Hinfo; discriminate].
  exists info. split; [reflexivity|]. split.
  - apply (stats_given_as_string (E := Demo.mask_world) Demo.store
             [("raster_id", JStr "r1"); ("stats", JStr "mean")] "r1" info "mean" 1%Z);
      [reflexivity | discriminate | exact Hinfo | reflexivity | reflexivity].
  - unfold _parse_query_params, py_get.
    cbn [dict_lookup String.eqb Ascii.eqb Bool.eqb bind truthy negb store_get].
    unfold get. rewrite Hinfo. reflexivity.
Defined.

(** X19. The conversion of a point of a comparison, when it returns,
    returns the same object with "lat" and "lon" replaced by their values
    as floats, in place: the keys and their order are kept, and every other
    field, the name among them, is unchanged.  A point without "lat", or
    with "lat" and without "lon", raises the [KeyError] of the missing
    key. *)
Theorem convert_point_in_place {E : Externals} pt :
  (forall pt', convert_point pt = Ok pt' ->
     exists fields fields' vlat vlon lat lon,
       pt = JObj fields /\ pt' = JObj fields' /\
       dict_lookup fields "lat" = Some vlat /\ py_float vlat = Ok lat /\
       dict_lookup fields "lon" = Some vlon /\ py_float vlon = Ok lon /\
       dict_lookup fields' "lat" = Some (JFloat lat) /\
       dict_lookup fields' "lon" = Some (JFloat lon) /\
       map fst fields' = map fst fields /\
       forall k, k <> "lat" -> k <> "lon" -> dict_lookup fields' k = dict_lookup fields k) /\
  (forall fields, pt = JObj fields -> dict_lookup fields "lat" = None ->
     convert_point pt = Raise (KeyError "lat")) /\
  (forall fields vlat lat, pt = JObj fields ->
     dict_lookup fields "lat" = Some vlat -> py_float vlat = Ok lat ->
     dict_lookup fields "lon" = None ->
     convert_point pt = Raise (KeyError "lon")).
Proof.
  split; [|split].
  - intros pt' H. unfold convert_point in H.
    destruct pt as [| | | | | |fields]; try discriminate.
    cbn [py_getitem] in H.
    destruct (dict_lookup fields "lat") as [vlat|] eqn:Hlat; [|discriminate].
    cbn [bind] in H. destruct (py_float vlat) as [lat|] eqn:Hflat; [|discriminate].
    cbn [bind] in H.
    rewrite dict_lookup_set_ne in H by discriminate.
    destruct (dict_lookup fields "lon") as [vlon|] eqn:Hlon; [|discriminate].
    cbn [bind] in H. destruct (py_float vlon) as [lon|] eqn:Hflon; [|discriminate].
    cbn [bind] in H. injection H as <-.
    exists fields, (dict_set (dict_set fields "lat" (JFloat lat)) "lon" (JFloat lon)),
      vlat, vlon, lat, lon.
    repeat split; trivial.
    + rewrite dict_lookup_set_ne by discriminate. apply dict_lookup_set_eq.
    + apply dict_lookup_set_eq.
    + rewrite (dict_set_keys _ "lon" _ vlon).
      * now apply dict_set_keys with (w := vlat).
      * now rewrite dict_lookup_set_ne by discriminate.
    + intros k Hk1 Hk2. now rewrite !dict_lookup_set_ne.
  - intros fields -> Hlat. unfold convert_point. cbn [py_getitem]. now rewrite Hlat.
  - intros fields vlat lat -> Hlat Hflat Hlon. unfold convert_point. cbn [py_getitem].
    rewrite Hlat. cbn [bind]. rewrite Hflat. cbn [bind].
    rewrite dict_lookup_set_ne by discriminate. now rewrite Hlon.
Qed.

Example convert_point_example :
  convert_point (E := Demo.mask_world)
    (JObj [("name", JStr "A"); ("lat", JBool true); ("lon", JFloat 10.5)])
  = Ok (JObj [("name", JStr "A"); ("lat", JFloat 1); ("lon", JFloat 10.5)]).
Proof. reflexivity. Qed.



(* ------------------------------------------------------------------ *)
(** ** The CSV export *)

Section ExportFacts.

Context {A B : Type}.

Lemma Forall2_In_r (R : A -> B -> Prop) l rs y :
  Forall2 R l rs -> In y rs -> exists x, In x l /\ R x y.
Proof.
  induction 1 as [|x r l' rs' Hx _ IH]; simpl; [intros []|].
  intros [<-|Hy]; [now exists x; split; [left|]|].
  destruct (IH Hy) as (x' & Hin & Hr). exists x'. split; [now right | exact Hr].
Qed.

Lemma Forall2_In_l (R : A -> B -> Prop) l rs x :
  Forall2 R l rs -> In x l -> exists y, In y rs /\ R x y.
Proof.
  induction 1 as [|x' r l' rs' Hx _ IH]; simpl; [intros []|].
  intros [<-|Hy]; [now exists r; split; [left|]|].
  destruct (IH Hy) as (y & Hin & Hr). exists y. split; [now right | exact Hr].
Qed.

Lemma Forall2_impl_In (R R' : A -> B -> Prop) l rs :
  Forall2 R l rs -> (forall x y, In x l -> R x y -> R' x y) -> Forall2 R' l rs.
Proof.
  induction 1 as [|x r l' rs' Hx _ IH]; intros H; constructor.
  - apply H; [now left | exact Hx].
  - apply IH. intros x' y Hin. apply H. now right.
Qed.

End ExportFacts.

Lemma stat_keys_Ok r keys :
  stat_keys r = Ok keys ->
  exists fields, r = JObj fields /\
    (dict_lookup fields "stats" = None \/
     exists st, dict_lookup fields "stats" = Some (JObj st)).
Proof.
  unfold stat_keys. destruct r as [| | | | | |fields]; try discriminate.
  cbn [py_get bind]. intros H. exists fields. split; [reflexivity|].
  destruct (dict_lookup fields "stats") as [st|]; [|now left].
  destruct st; try discriminate. right. eauto.
Qed.

Lemma export_cell_stat_or_blank r keys k :
  stat_keys r = Ok keys -> export_cell r k = Ok (stat_or_blank r k).
Proof.
  intros H. apply stat_keys_Ok in H as (fields & -> & [H|(st & H)]);
    unfold export_cell, stat_or_blank; cbn [py_get bind]; rewrite H; reflexivity.
Qed.

Lemma export_cells r keys cols :
  stat_keys r = Ok keys ->
  for_each (export_cell r) cols = Ok (map (stat_or_blank r) cols).
Proof.
  intros H. apply for_each_Ok. induction cols as [|k ks IH]; simpl; constructor.
  - now apply export_cell_stat_or_blank with (keys := keys).
  - exact IH.
Qed.

Lemma export_row_label r keys cols :
  stat_keys r = Ok keys ->
  export_row cols r
  = match py_getitem r "label" with
    | Ok lbl => Ok (lbl :: map (stat_or_blank r) cols)
    | Raise _ => Raise (KeyError "label")
    end.
Proof.
  intros H. unfold export_row. rewrite (export_cells r keys cols H).
  apply stat_keys_Ok in H as (fields & -> & _). cbn [py_getitem].
  now destruct (dict_lookup fields "label").
Qed.

(** X21. The columns of the export are the names of the statistics of all
    the results together, each once and in ascending order, without those
    that start with an underscore: the coordinates "_lat" and "_lon" that a
    comparison stores among the statistics are not exported. *)
Theorem export_columns_sorted_public results cols :
  export_columns results = Ok cols ->
  StronglySorted (fun a b => PyStr.lt a b = true) cols /\
  forall k, In k cols <->
    PyStr.startswith_underscore k = false /\
    exists r keys, In r results /\ stat_keys r = Ok keys /\ In k keys.
Proof.
  intros H. unfold export_columns in H.
  apply bind_Ok in H as (keys & Hkeys & [= <-]). apply for_each_Ok in Hkeys.
  split.
  - apply StrFacts.str_sorted_strict. apply List.NoDup_filter, StrFacts.str_set_NoDup.
  - intros k.
    rewrite StrFacts.str_sorted_In, List.filter_In, StrFacts.str_set_In, List.in_concat,
      Bool.negb_true_iff.
    split.
    + intros [(ks & Hks & Hk) Hu]. split; [exact Hu|].
      destruct (Forall2_In_r _ _ _ _ Hkeys Hks) as (r & Hr & Hrk). now exists r, ks.
    + intros (Hu & r & ks & Hr & Hrk & Hk). split; [|exact Hu].
      destruct (Forall2_In_l _ _ _ _ Hkeys Hr) as (ks' & Hks' & Heq).
      rewrite Hrk in Heq. injection Heq as <-. now exists ks.
Qed.

Lemma export_columns_sorted_public_witness :
  export_columns [JObj [("label", JStr "Alpha");
                        ("stats", JObj [("sum", JFloat 40); ("_lat", JFloat 0.5);
                                        ("mean", JFloat 10); ("_lon", JFloat 10.5)])];
                  JObj [("label", JStr "Beta");
                        ("stats", JObj [("count", JFloat 4); ("mean", JFloat 10)])]]
  = Ok ["count"; "mean"; "sum"] /\
  StronglySorted (fun a b => PyStr.lt a b = true) ["count"; "mean"; "sum"].
Proof.
  split; [reflexivity|].
  refine (proj1 (export_columns_sorted_public
                   [JObj [("label", JStr "Alpha");
                          ("stats", JObj [("sum", JFloat 40); ("_lat", JFloat 0.5);
                                          ("mean", JFloat 10); ("_lon", JFloat 10.5)])];
                    JObj [("label", JStr "Beta");
                          ("stats", JObj [("count", JFloat 4); ("mean", JFloat 10)])]]
                   ["count"; "mean"; "sum"] _)).
  reflexivity.
Defined.

(** X22. The table of the export.  With the columns computed, the export
    is answered with status 200 exactly when every result has a label: the
    table is the header, "label" and the columns, then one row per result,
    in the order of the results, each as wide as the header, with the label
    first and under each column the statistic of that name, or the empty
    string when the result has none.  One result without label and the
    [KeyError] leaves the handler, which has no [try] block. *)
Theorem export_csv_table {P : Platform} data results items cols :
  py_get data "results" (JArr []) = Ok results ->
  truthy results = true ->
  py_iter results = Ok items ->
  export_columns items = Ok cols ->
  (Forall (fun r => exists lbl, py_getitem r "label" = Ok lbl) items ->
   exists rows,
     export_csv data
     = Reply 200 (JObj [("csv", JStr (csv_text ((JStr "label" :: map JStr cols) :: rows)))]) /\
     Forall2 (fun r row =>
                exists lbl, py_getitem r "label" = Ok lbl /\
                            row = lbl :: map (stat_or_blank r) cols) items rows /\
     Forall (fun row => length row = length (JStr "label" :: map JStr cols)) rows) /\
  (~ Forall (fun r => exists lbl, py_getitem r "label" = Ok lbl) items ->
   export_csv data = Crash (KeyError "label")).
Proof.
  intros Hres Htruthy Hitems Hcols.
  assert (Hkeys : forall r, In r items -> exists keys, stat_keys r = Ok keys).
  { unfold export_columns in Hcols. apply bind_Ok in Hcols as (keys & Hkeys & _).
    apply for_each_Ok in Hkeys. intros r Hr.
    destruct (Forall2_In_l _ _ _ _ Hkeys Hr) as (ks & _ & Hks). now exists ks. }
  assert (Hcsv : export_csv data
                 = match for_each (export_row cols) items with
                   | Raise e => Crash e
                   | Ok rows =>
                       Reply 200 (JObj [("csv", JStr (csv_text
                                    ((JStr "label" :: map JStr cols) :: rows)))])
                   end).
  { unfold export_csv, export_rows. rewrite Hres, Htruthy, Hitems. cbn [negb bind].
    rewrite Hcols. cbn [bind]. now destruct (for_each (export_row cols) items). }
  split.
  - intros Hlabels.
    destruct (for_each_total (export_row cols) items) as (rows & Hrows).
    { intros r Hr. destruct (Hkeys r Hr) as (keys & Hk).
      rewrite (export_row_label r keys cols Hk).
      rewrite List.Forall_forall in Hlabels. destruct (Hlabels r Hr) as (lbl & ->). eauto. }
    exists rows. rewrite Hcsv, Hrows. split; [reflexivity|].
    apply for_each_Ok in Hrows.
    assert (Hshape : Forall2 (fun r row =>
                exists lbl, py_getitem r "label" = Ok lbl /\
                            row = lbl :: map (stat_or_blank r) cols) items rows).
    { apply (Forall2_impl_In _ _ _ _ Hrows). intros r row Hin Hr.
      destruct (Hkeys r Hin) as (keys & Hk).
      rewrite (export_row_label r keys cols Hk) in Hr.
      destruct (py_getitem r "label") as [lbl|]; [|discriminate].
      injection Hr as <-. now exists lbl. }
    split; [exact Hshape|].
    clear -Hshape. induction Hshape as [|r row items' rows' (lbl & _ & ->) _ IH];
      constructor; [|exact IH].
    simpl. now rewrite !length_map.
  - intros Hnot. rewrite Hcsv.
    destruct (for_each (export_row cols) items) as [rows|e] eqn:Hrows.
    + exfalso. apply Hnot. apply for_each_Ok in Hrows. rewrite List.Forall_forall.
      intros r Hr. destruct (Forall2_In_l _ _ _ _ Hrows Hr) as (row & _ & Hrow).
      destruct (Hkeys r Hr) as (keys & Hk).
      rewrite (export_row_label r keys cols Hk) in Hrow.
      destruct (py_getitem r "label") as [lbl|]; [eauto | discriminate].
    + apply for_each_Raise in Hrows as (before & r & after & rs & -> & _ & Hr).
      destruct (Hkeys r) as (keys & Hk); [apply in_or_app; right; now left|].
      rewrite (export_row_label r keys cols Hk) in Hr.
      destruct (py_getitem r "label"); [discriminate|]. now injection Hr as <-.
Qed.

Lemma export_csv_table_witness :
  exists rows,
    export_csv (P := DemoOS.platform) (JObj [("results", DemoOS.two_results)])
    = Reply 200 (JObj [("csv", JStr (csv_text (Platform := DemoOS.platform)
                                       ([JStr "label"; JStr "count"; JStr "mean"; JStr "sum"]
                                        :: rows)))]) /\
    length rows = 2%nat.
Proof.
  destruct (export_csv_table (P := DemoOS.platform)
              (JObj [("results", DemoOS.two_results)]) DemoOS.two_results
              [JObj [("label", JStr "Alpha");
                     ("stats", JObj [("sum", JFloat 40); ("_lat", JFloat 0.5);
                                     ("mean", JFloat 10); ("_lon", JFloat 10.5)])];
               JObj [("label", JStr "Beta");
                     ("stats", JObj [("count", JFloat 4); ("mean", JFloat 10)])]]
              ["count"; "mean"; "sum"]
              Logic.eq_refl Logic.eq_refl Logic.eq_refl Logic.eq_refl) as [Hok _].
  destruct Hok as (rows & Hcsv & Hshape & _).
  - repeat constructor; eexists; reflexivity.
  - exists rows. split; [exact Hcsv|].
    apply Forall2_length in Hshape. now rewrite <- Hshape.
Defined.
